(** * Workflow engine (src/workflow.py): shallow embedding and properties

    The Python module defines two classes, [WorkflowEngine] and
    [SystemOrchestrator].  Their methods are embedded as functions that pass
    the object's fields explicitly; everything outside the object (the wall
    clock, the uuid generator, the logger, the agents' own mutable state) lives
    in a [World] that is threaded by a small state monad.

    The agent call of line 67 is embedded twice.  In the first reading an
    agent is a function from a task to a result that touches only its own
    state.  The second reading, module [ByRef], is the one of the Python
    object model: the call may raise, the task carries the stored step's own
    parameters object, and the payload of the result is kept by reference;
    objects that agents can write to live in a heap.  The two readings agree
    on agents that return normally and write to no shared object
    ([byref_agrees_on_plain_agents]). *)

From Stdlib Require Import ZArith.
From stdpp Require Import base strings pretty list gmap.

Open Scope string_scope.

(** ** Python values

    The values that flow through the engine untouched: step parameters, agent
    payloads and durations, and the dict literals the engine builds. A dict
    literal is the list of its items in insertion order. [PRef l] names a
    mutable object of the heap of module [ByRef]: a dict or list that is
    shared, not copied; a [PDict] or [PList] written inline is a value that
    nobody writes to. *)
#[local] Unset Elimination Schemes.
Inductive pyval : Type :=
| PNone
| PBool (b : bool)
| PInt (z : Z)
| PFloat (m e : Z)
| PStr (s : string)
| PList (l : list pyval)
| PDict (d : list (string * pyval))
| PRef (l : nat).
#[local] Set Elimination Schemes.

(** [None] or a [str]. *)
Definition opt_str (o : option string) : pyval :=
  match o with
  | Some s => PStr s
  | None => PNone
  end.

(** ** Insertion-ordered dictionaries

    [self.workflows] is a Python [dict] whose key order is observable through
    [get_stats]: [d[k] = v] overwrites the value of a key that is present and
    keeps its position, and appends the item otherwise. *)
Module PyDict.

Definition t (V : Type) : Type := list (string * V).

Definition empty {V} : t V := [].

(** [d.get(k)] *)
Fixpoint get {V} (k : string) (d : t V) : option V :=
  match d with
  | [] => None
  | (k', v) :: rest => if String.eqb k k' then Some v else get k rest
  end.

(** [k in d] *)
Definition contains {V} (k : string) (d : t V) : bool :=
  match get k d with
  | Some _ => true
  | None => false
  end.

(** [d[k] = v] *)
Fixpoint set {V} (k : string) (v : V) (d : t V) : t V :=
  match d with
  | [] => [(k, v)]
  | (k', v') :: rest =>
      if String.eqb k k' then (k, v) :: rest else (k', v') :: set k v rest
  end.

(** [list(d.keys())] *)
Definition keys {V} (d : t V) : list string := map fst d.

(** [len(d)] *)
Definition len {V} (d : t V) : nat := length d.

End PyDict.

(** ** Tasks, results and agents (imported from src.adk_core / src.agents) *)

(** Modelled from the spec: the enum [TaskStatus] of src.adk_core is not in
    this file; the engine only uses [PENDING], the other members are the
    terminal and running states the spec lists. *)
Inductive TaskStatus : Type := PENDING | RUNNING | COMPLETED | FAILED | SKIPPED.

(** Modelled from the spec: the class [Task] of src.adk_core, with the four
    keyword arguments the engine passes to its constructor. *)
Record Task : Type := mkTask {
  task_id : string;
  task_type : pyval;
  status : TaskStatus;
  parameters : pyval
}.

(** Modelled from the spec: the result of [Agent.execute_task]; the engine
    reads [success], [result] and [execution_time]. *)
Record TaskResult : Type := mkTaskResult {
  success : bool;
  result : pyval;
  execution_time : pyval;
  error : option string
}.

(** The mutable state owned by the agent objects. *)
Definition Memory : Type := list (string * pyval).

(** Modelled from the spec: the class [Agent] of src.agents, an external
    capability that executes a task and returns a [TaskResult]; it may read
    and update its own state. This is the agent of the first reading: it
    returns normally and writes to no object it shares with the engine
    ([ByRef.Agent] is the agent without these limits). *)
Record Agent : Type := mkAgent {
  agent_id : string;
  name : string;
  execute_task : Task -> Memory -> TaskResult * Memory
}.

(** ** The world outside the engine *)
Record World : Type := mkWorld {
  clock : nat -> string;        (* successive values of datetime.now().isoformat() *)
  clock_pos : nat;
  uuid_src : nat -> string;     (* successive values of str(uuid.uuid4()) *)
  uuid_pos : nat;
  memory : Memory;
  log : list string;            (* lines written through logger.info *)
  calls : list (string * Task)  (* trace of execute_task invocations *)
}.

Definition M (A : Type) : Type := World -> A * World.

Definition ret {A} (a : A) : M A := fun w => (a, w).

Definition bind {A B} (m : M A) (k : A -> M B) : M B :=
  fun w => let (a, w') := m w in k a w'.

Notation "'let*' x ':=' m 'in' k" := (bind m (fun x => k))
  (at level 10, x name, m at level 100, k at level 200).

(** [datetime.now().isoformat()] *)
Definition now_isoformat : M string :=
  fun w => (clock w (clock_pos w),
            mkWorld (clock w) (S (clock_pos w)) (uuid_src w) (uuid_pos w)
                    (memory w) (log w) (calls w)).

(** [str(uuid.uuid4())] *)
Definition uuid4_str : M string :=
  fun w => (uuid_src w (uuid_pos w),
            mkWorld (clock w) (clock_pos w) (uuid_src w) (S (uuid_pos w))
                    (memory w) (log w) (calls w)).

(** [logger.info(line)] *)
Definition logger_info (line : string) : M unit :=
  fun w => (tt,
            mkWorld (clock w) (clock_pos w) (uuid_src w) (uuid_pos w)
                    (memory w) (log w ++ [line]) (calls w)).

(** [agent.execute_task(task)], where [key] is the id the agent was looked up
    under; the invocation is appended to the trace. First reading of line 67;
    [ByRef.call_execute_task] is the second. *)
Definition call_execute_task (key : string) (agent : Agent) (task : Task)
  : M TaskResult :=
  fun w => let (r, m') := execute_task agent task (memory w) in
           (r, mkWorld (clock w) (clock_pos w) (uuid_src w) (uuid_pos w)
                       m' (log w) (calls w ++ [(key, task)])).

(** ** Workflow definitions *)

(** A step descriptor is a dict; the engine reads three of its keys with
    [step.get].  The record holds what these reads see ([None] for a missing
    key) and the remaining items of the dict, which the engine never reads.
    An agent id that is present is a [str], like the keys of
    [agents : Dict[str, Agent]]. *)
Record Step : Type := mkStep {
  step_agent_id : option string;
  step_task_type : option string;
  step_parameters : option pyval;
  step_rest : list (string * pyval)
}.

(** The dict built by [define_workflow]. *)
Record Workflow : Type := mkWorkflow {
  workflow_id : string;
  wf_name : string;
  steps : list Step;
  created_at : string
}.

(** ** class WorkflowEngine *)
Record WorkflowEngine : Type := mkEngine {
  workflows : PyDict.t Workflow;
  execution_history : list pyval
}.

(** [WorkflowEngine.__init__] *)
Definition engine_init : M WorkflowEngine :=
  let* _ := logger_info "Workflow Engine initialized" in
  ret (mkEngine PyDict.empty []).

Definition define_workflow (wid nm : string) (stps : list Step)
    (self : WorkflowEngine) : M (Workflow * WorkflowEngine) :=
  let* now := now_isoformat in
  let workflow := mkWorkflow wid nm stps now in
  let self' := mkEngine (PyDict.set wid workflow (workflows self))
                        (execution_history self) in
  let* _ := logger_info ("Workflow defined: " ++ nm) in
  ret (workflow, self').

(** The dict returned when the workflow id is unknown. *)
Definition workflow_not_found : pyval :=
  PDict [("success", PBool false); ("error", PStr "Workflow not found")].

(** The outcome appended when the step's agent is not in [agents]. *)
Definition outcome_agent_not_found (aid : option string) : pyval :=
  PDict [("agent_id", opt_str aid);
         ("status", PStr "failed");
         ("error", PStr "Agent not found")].

(** The outcome appended after the agent returned [r]. *)
Definition outcome_of_result (aid : option string) (ttype : pyval)
    (r : TaskResult) : pyval :=
  PDict [("agent_id", opt_str aid);
         ("task_type", ttype);
         ("status", PStr (if success r then "completed" else "failed"));
         ("result", result r);
         ("execution_time", execution_time r)].

(** [agents.get(agent_id)] for an id that is a [str] or [None]; [None] is
    never a key of [agents : Dict[str, Agent]]. *)
Definition find_agent {A : Type} (aid : option string) (agents : gmap string A)
  : option (string * A) :=
  match aid with
  | Some a => match agents !! a with
              | Some ag => Some (a, ag)
              | None => None
              end
  | None => None
  end.

(** The [Task] built for a step. *)
Definition task_of_step (uuid : string) (step : Step) : Task :=
  mkTask uuid (opt_str (step_task_type step)) PENDING
         (default (PDict []) (step_parameters step)).

(** One iteration of the loop body: the outcome appended for [step]. *)
Definition execute_step (agents : gmap string Agent) (step : Step) : M pyval :=
  let aid := step_agent_id step in
  let ttype := opt_str (step_task_type step) in
  match find_agent aid agents with
  | None => ret (outcome_agent_not_found aid)
  | Some (key, agent) =>
      let* uuid := uuid4_str in
      let task := task_of_step uuid step in
      let* r := call_execute_task key agent task in
      ret (outcome_of_result aid ttype r)
  end.

(** [for step in workflow["steps"]: ...], with [acc] the current contents of
    [execution["steps"]]. *)
Fixpoint execute_steps (agents : gmap string Agent) (stps : list Step)
    (acc : list pyval) : M (list pyval) :=
  match stps with
  | [] => ret acc
  | step :: rest =>
      let* o := execute_step agents step in
      execute_steps agents rest (acc ++ [o])
  end.

(** The finished [execution] dict. *)
Definition execution_record (wid started : string) (outs : list pyval)
    (completed : string) : pyval :=
  PDict [("workflow_id", PStr wid);
         ("started_at", PStr started);
         ("steps", PList outs);
         ("completed_at", PStr completed)].

Definition execute_workflow (wid : string) (agents : gmap string Agent)
    (self : WorkflowEngine) : M (pyval * WorkflowEngine) :=
  match PyDict.get wid (workflows self) with
  | None => ret (workflow_not_found, self)
  | Some workflow =>
      let* started := now_isoformat in
      let* outs := execute_steps agents (steps workflow) [] in
      let* completed := now_isoformat in
      let execution := execution_record wid started outs completed in
      ret (execution,
           mkEngine (workflows self) (execution_history self ++ [execution]))
  end.

Definition get_stats (self : WorkflowEngine) : pyval :=
  PDict [("workflows_defined", PInt (Z.of_nat (PyDict.len (workflows self))));
         ("workflows_executed", PInt (Z.of_nat (length (execution_history self))));
         ("workflows", PList (map PStr (PyDict.keys (workflows self))))].

(** ** class SystemOrchestrator

    Only membership, lookup and size of [self.agents] are used below, so it is
    a finite map. *)
Record SystemOrchestrator : Type := mkOrchestrator {
  agents : gmap string Agent;
  workflow_engine : WorkflowEngine
}.

(** [SystemOrchestrator.__init__] *)
Definition orchestrator_init : M SystemOrchestrator :=
  let* engine := engine_init in
  let* _ := logger_info "System Orchestrator initialized" in
  ret (mkOrchestrator ∅ engine).

Definition register_agent (agent : Agent) (self : SystemOrchestrator)
  : M (bool * SystemOrchestrator) :=
  let self' := mkOrchestrator (<[agent_id agent := agent]> (agents self))
                              (workflow_engine self) in
  let* _ := logger_info ("Agent registered: " ++ name agent) in
  ret (true, self').

(** ** The agent call with shared objects

    Python passes and stores objects by reference, and a call may raise.
    Lines 49 and 64 put the object stored under the step's "parameters" key
    into the task, line 67 calls the agent with no handler around it, and
    line 73 keeps the payload object of the result in the outcome that lines
    78-80 append to the ledger. *)
Module ByRef.

(** The mutable objects that agents can reach, by address. *)
Definition Heap : Type := gmap nat pyval.

(** An exception that leaves a call. *)
Inductive Raised : Type := Exception (msg : string).

(** The class [Agent] of src.agents in this reading: [execute_task] returns
    a result or raises, and may write to its own state and to the heap. *)
Record Agent : Type := mkAgent {
  agent_id : string;
  name : string;
  execute_task : Task -> Memory -> Heap -> (Raised + TaskResult) * Memory * Heap
}.

(** [agent.execute_task(task)] *)
Definition call_execute_task (key : string) (agent : Agent) (task : Task)
    (w : World) (h : Heap) : (Raised + TaskResult) * World * Heap :=
  let '(r, m', h') := execute_task agent task (memory w) h in
  (r,
   mkWorld (clock w) (clock_pos w) (uuid_src w) (uuid_pos w)
           m' (log w) (calls w ++ [(key, task)]),
   h').

(** One iteration of the loop body; an exception of the agent leaves it. *)
Definition execute_step (agents : gmap string Agent) (step : Step)
    (w : World) (h : Heap) : (Raised + pyval) * World * Heap :=
  let aid := step_agent_id step in
  let ttype := opt_str (step_task_type step) in
  match find_agent aid agents with
  | None => (inr (outcome_agent_not_found aid), w, h)
  | Some (key, agent) =>
      let (uuid, w1) := uuid4_str w in
      let task := task_of_step uuid step in
      let '(r, w2, h2) := call_execute_task key agent task w1 h in
      match r with
      | inl e => (inl e, w2, h2)
      | inr res => (inr (outcome_of_result aid ttype res), w2, h2)
      end
  end.

(** The loop; an exception ends it at once. *)
Fixpoint execute_steps (agents : gmap string Agent) (stps : list Step)
    (acc : list pyval) (w : World) (h : Heap)
  : (Raised + list pyval) * World * Heap :=
  match stps with
  | [] => (inr acc, w, h)
  | step :: rest =>
      let '(o, w1, h1) := execute_step agents step w h in
      match o with
      | inl e => (inl e, w1, h1)
      | inr out => execute_steps agents rest (acc ++ [out]) w1 h1
      end
  end.

(** [execute_workflow]; an exception leaves it before lines 77-80. *)
Definition execute_workflow (wid : string) (agents : gmap string Agent)
    (self : WorkflowEngine) (w : World) (h : Heap)
  : (Raised + pyval) * WorkflowEngine * World * Heap :=
  match PyDict.get wid (workflows self) with
  | None => (inr workflow_not_found, self, w, h)
  | Some workflow =>
      let (started, w1) := now_isoformat w in
      let '(outs, w2, h2) := execute_steps agents (steps workflow) [] w1 h in
      match outs with
      | inl e => (inl e, self, w2, h2)
      | inr outs =>
          let (completed, w3) := now_isoformat w2 in
          let execution := execution_record wid started outs completed in
          (inr execution,
           mkEngine (workflows self) (execution_history self ++ [execution]),
           w3, h2)
      end
  end.

(** What a value shows: every reference replaced by the present content of
    its object. *)
Fixpoint resolve (h : Heap) (v : pyval) : pyval :=
  match v with
  | PRef l => match h !! l with
              | Some content => content
              | None => PRef l
              end
  | PList l => PList (map (resolve h) l)
  | PDict d => PDict (map (fun kv => (fst kv, resolve h (snd kv))) d)
  | _ => v
  end.

(** The objects a value refers to. *)
Fixpoint refs_of (v : pyval) : list nat :=
  match v with
  | PRef l => [l]
  | PList l => concat (map refs_of l)
  | PDict d => concat (map (fun kv => refs_of (snd kv)) d)
  | _ => []
  end.

(** The values a step descriptor holds. *)
Definition step_value (step : Step) : pyval :=
  PList (option_list (step_parameters step) ++ [PDict (step_rest step)]).

Definition resolve_step (h : Heap) (step : Step) : Step :=
  mkStep (step_agent_id step) (step_task_type step)
         (resolve h <$> step_parameters step)
         (map (fun kv => (fst kv, resolve h (snd kv))) (step_rest step)).

Definition resolve_workflow (h : Heap) (wf : Workflow) : Workflow :=
  mkWorkflow (workflow_id wf) (wf_name wf) (map (resolve_step h) (steps wf))
             (created_at wf).

(** What the definition store shows. *)
Definition stored_view (h : Heap) (store : PyDict.t Workflow)
  : PyDict.t Workflow :=
  map (fun kv => (fst kv, resolve_workflow h (snd kv))) store.

(** The objects the definition store refers to. *)
Definition store_refs (store : PyDict.t Workflow) : list nat :=
  concat (map (fun kv => concat (map (fun step => refs_of (step_value step))
                                     (steps (snd kv)))) store).

(** What the ledger shows. *)
Definition ledger_view (h : Heap) (ledger : list pyval) : list pyval :=
  map (resolve h) ledger.

(** The objects the ledger refers to. *)
Definition ledger_refs (ledger : list pyval) : list nat :=
  concat (map refs_of ledger).

(** The agent writes to none of the objects [locs]. *)
Definition writes_outside (locs : list nat) (agent : Agent) : Prop :=
  ∀ task m h l, l ∈ locs → (execute_task agent task m h).2 !! l = h !! l.

(** The agent never raises. *)
Definition returns_normally (agent : Agent) : Prop :=
  ∀ task m h, ∃ res, (execute_task agent task m h).1.1 = inr res.

End ByRef.

(** An agent of the first reading, seen as one of the second: it returns
    normally and leaves the heap alone. *)
Definition plain_agent (agent : Agent) : ByRef.Agent :=
  ByRef.mkAgent (agent_id agent) (name agent)
    (fun task m h =>
       let (r, m') := execute_task agent task m in (inr r, m', h)).

(** ** Reading the results *)

(** [v.get(key)] on a dict value. *)
Definition py_get (key : string) (v : pyval) : option pyval :=
  match v with
  | PDict d => PyDict.get key d
  | _ => None
  end.

(** [list(v.keys())] on a dict value. *)
Definition py_keys (v : pyval) : list string :=
  match v with
  | PDict d => PyDict.keys d
  | _ => []
  end.

(** [list(v.values())] on a dict value. *)
Definition py_values (v : pyval) : list pyval :=
  match v with
  | PDict d => map snd d
  | _ => []
  end.

(** The steps of a workflow that reach an agent, each with the key its agent
    is found under, in declaration order. *)
Definition dispatched (agents : gmap string Agent) (stps : list Step)
  : list (string * Step) :=
  omap (fun step => (fun hit => (fst hit, step)) <$>
                    find_agent (step_agent_id step) agents) stps.

(** The world in which the [i]-th step of [stps] starts, when the loop starts
    in [w]. *)
Definition world_before (agents : gmap string Agent) (stps : list Step)
    (i : nat) (w : World) : World :=
  snd (execute_steps agents (take i stps) [] w).

(** The invocations a run makes when the uuid generator is at position
    [first]: one per dispatched step, each with the next uuid. *)
Definition tasks_sent (uuid_of : nat -> string) (first : nat)
    (ds : list (string * Step)) : list (string * Task) :=
  imap (fun i hit => (fst hit, task_of_step (uuid_of (first + i)) (snd hit))) ds.

(** ** Histories of calls on one engine *)
Inductive Call : Type :=
| CallDefine (wid nm : string) (stps : list Step)
| CallExecute (wid : string) (agents : gmap string Agent).

Definition do_call (c : Call) (self : WorkflowEngine) : M WorkflowEngine :=
  match c with
  | CallDefine wid nm stps =>
      let* r := define_workflow wid nm stps self in ret (snd r)
  | CallExecute wid agents =>
      let* r := execute_workflow wid agents self in ret (snd r)
  end.

Fixpoint do_calls (cs : list Call) (self : WorkflowEngine) : M WorkflowEngine :=
  match cs with
  | [] => ret self
  | c :: rest => let* self' := do_call c self in do_calls rest self'
  end.

(** The ids passed to [define_workflow], in call order. *)
Definition defined_ids (cs : list Call) : list string :=
  omap (fun c => match c with
                 | CallDefine wid _ _ => Some wid
                 | CallExecute _ _ => None
                 end) cs.

(** Each id once, at the place of its first occurrence. *)
Fixpoint first_occurrences (ids : list string) : list string :=
  match ids with
  | [] => []
  | k :: rest => k :: filter (fun x => x ≠ k) (first_occurrences rest)
  end.

(** ** Sample data *)
Module Sample.

Definition world : World :=
  mkWorld (fun n => "2024-05-01T10:00:0" ++ pretty n) 0
          (fun n => "uuid-" ++ pretty n) 0 [] [] [].

(** An agent that succeeds and hands the parameters back. *)
Definition echo : Agent :=
  mkAgent "echo" "Echo agent"
    (fun task mem =>
       (mkTaskResult true (parameters task) (PFloat 3 (-8)) None, mem)).

(** An agent whose task fails. *)
Definition broken : Agent :=
  mkAgent "broken" "Broken agent"
    (fun task mem =>
       (mkTaskResult false PNone (PFloat 1 (-8)) (Some "boom"), mem)).

(** An agent that counts its invocations in its own state. *)
Definition counter : Agent :=
  mkAgent "counter" "Counting agent"
    (fun task mem =>
       let n := match PyDict.get "count" mem with
                | Some (PInt z) => z
                | _ => 0%Z
                end in
       (mkTaskResult true (PInt n) (PFloat 5 (-8)) None,
        PyDict.set "count" (PInt (n + 1)) mem)).

Definition pool : gmap string Agent :=
  <["echo" := echo]> (<["broken" := broken]> (<["counter" := counter]> ∅)).

Definition step_a : Step :=
  mkStep (Some "echo") (Some "greet")
         (Some (PDict [("who", PStr "world")])) [("step_id", PStr "A")].

Definition step_b : Step :=
  mkStep (Some "echo") (Some "greet")
         (Some (PDict [("who", PStr "world")])) [("step_id", PStr "B")].

Definition step_ghost : Step :=
  mkStep (Some "ghost") (Some "haunt") None [].

Definition step_broken : Step :=
  mkStep (Some "broken") (Some "crash") None [].

Definition step_count : Step :=
  mkStep (Some "counter") None None [].

(** An engine holding one workflow, W1. *)
Definition engine1 : WorkflowEngine :=
  mkEngine [("W1", mkWorkflow "W1" "first" [step_a; step_ghost; step_count]
                              "2024-04-30T09:00:00")] [].

(** A second agent object that carries the id of [echo]. *)
Definition echo2 : Agent :=
  mkAgent "echo" "Echo agent, second edition"
    (fun task mem => (mkTaskResult true PNone (PFloat 2 (-8)) None, mem)).

Definition orchestrator : SystemOrchestrator := mkOrchestrator pool engine1.

(** The agents of [pool] that keep no state. *)
Definition stateless_pool : gmap string Agent :=
  <["echo" := echo]> (<["broken" := broken]> ∅).

(** [pool] without the agent that no step of W1 names. *)
Definition small_pool : gmap string Agent :=
  <["echo" := echo]> (<["counter" := counter]> ∅).

(** A later moment: the clock and the uuid generator have advanced. *)
Definition later_world : World :=
  mkWorld (clock world) 7 (uuid_src world) 4 [] [] [].

Definition history : list Call :=
  [CallDefine "W1" "first" [step_a];
   CallExecute "W2" pool;
   CallDefine "W2" "other" [step_ghost];
   CallExecute "W1" pool;
   CallDefine "W1" "second" [step_broken; step_count];
   CallExecute "W2" pool].

(** *** Agents and objects of the by-reference reading *)

(** An agent whose task blows up. *)
Definition raiser : ByRef.Agent :=
  ByRef.mkAgent "raiser" "Raising agent"
    (fun task mem h => (inl (ByRef.Exception "boom"), mem, h)).

(** An agent that writes into the parameters object of its task. *)
Definition scribbler : ByRef.Agent :=
  ByRef.mkAgent "scribe" "Scribbling agent"
    (fun task mem h =>
       (inr (mkTaskResult true PNone (PFloat 1 (-8)) None), mem,
        match parameters task with
        | PRef l => <[l := PDict [("who", PStr "mallory")]]> h
        | _ => h
        end)).

(** An agent that returns, every time, the one dict object in which it
    counts its calls. *)
Definition tally : ByRef.Agent :=
  ByRef.mkAgent "tally" "Tallying agent"
    (fun task mem h =>
       let n := match h !! 7 with
                | Some (PDict [(_, PInt z)]) => z
                | _ => 0%Z
                end in
       (inr (mkTaskResult true (PRef 7) (PFloat 1 (-8)) None), mem,
        <[7 := PDict [("n", PInt (n + 1))]]> h)).

Definition byref_pool : gmap string ByRef.Agent :=
  <["echo" := plain_agent echo]>
    (<["counter" := plain_agent counter]>
       (<["scribe" := scribbler]>
          (<["raiser" := raiser]> (<["tally" := tally]> ∅)))).

(** The agents of [pool], in the by-reference reading. *)
Definition plain_pool : gmap string ByRef.Agent := plain_agent <$> pool.

(** Object 0 is the parameters dict of [step_shared]. *)
Definition heap : ByRef.Heap := {[ 0 := PDict [("who", PStr "world")] ]}.

Definition step_shared : Step :=
  mkStep (Some "scribe") (Some "greet") (Some (PRef 0)) [].

Definition step_raise : Step :=
  mkStep (Some "raiser") (Some "crash") None [].

Definition step_tally : Step :=
  mkStep (Some "tally") (Some "count") None [].

(** An engine holding three workflows. *)
Definition engine3 : WorkflowEngine :=
  mkEngine
    [("WS", mkWorkflow "WS" "shared" [step_shared] "2024-04-30T09:00:00");
     ("WR", mkWorkflow "WR" "raising" [step_a; step_raise; step_count]
                       "2024-04-30T09:00:01");
     ("WT", mkWorkflow "WT" "tally" [step_tally] "2024-04-30T09:00:02")]
    [].

End Sample.

(** The statuses a step outcome may carry. *)
Definition status_values : list string := ["completed"; "failed"; "skipped"].

Definition status_ok (o : pyval) : Prop :=
  ∃ st, py_get "status" o = Some (PStr st) ∧ st ∈ status_values.

(** ** Histories: what they leave behind *)

(** The number of [execute_workflow] calls of a history that find their
    workflow, when the ids in [known] are stored at its start. *)
Fixpoint runs_recorded (known : list string) (cs : list Call) : nat :=
  match cs with
  | [] => 0
  | CallDefine wid _ _ :: rest => runs_recorded (wid :: known) rest
  | CallExecute wid _ :: rest =>
      (if bool_decide (wid ∈ known) then 1 else 0) + runs_recorded known rest
  end.

(** The name and steps passed by the last [define_workflow] call for [k]. *)
Fixpoint last_definition (k : string) (cs : list Call)
  : option (string * list Step) :=
  match cs with
  | [] => None
  | c :: rest =>
      match last_definition k rest with
      | Some d => Some d
      | None =>
          match c with
          | CallDefine wid nm stps =>
              if bool_decide (wid = k) then Some (nm, stps) else None
          | CallExecute _ _ => None
          end
      end
  end.

(** The names passed to [define_workflow], in call order. *)
Definition defined_names (cs : list Call) : list string :=
  omap (fun c => match c with
                 | CallDefine _ nm _ => Some nm
                 | CallExecute _ _ => None
                 end) cs.

(** What a stored definition holds besides its timestamp. *)
Definition definition_content (wf : Workflow) : string * string * list Step :=
  (workflow_id wf, wf_name wf, steps wf).

(** [register_agent] called for each agent of [ags] in turn. *)
Fixpoint register_all (ags : list Agent) (self : SystemOrchestrator)
  : M SystemOrchestrator :=
  match ags with
  | [] => ret self
  | agent :: rest =>
      let* r := register_agent agent self in register_all rest (snd r)
  end.

(** The last agent of [ags] that carries the id [aid]. *)
Definition last_registered (aid : string) (ags : list Agent) : option Agent :=
  last (filter (fun agent => agent_id agent = aid) ags).

(** A ledger entry names a workflow that is in the store. *)
Definition entry_of_stored (store : PyDict.t Workflow) (entry : pyval) : Prop :=
  ∃ wid, py_get "workflow_id" entry = Some (PStr wid) ∧
         is_Some (PyDict.get wid store).

(** The result of an agent's task depends on the task's type and parameters
    only, not on its identifier or on the agent's state. *)
Definition replayable (agent : Agent) : Prop :=
  ∀ t1 t2 m1 m2,
    task_type t1 = task_type t2 → parameters t1 = parameters t2 →
    (execute_task agent t1 m1).1 = (execute_task agent t2 m2).1.

(** * Properties *)

(** ** Facts about insertion-ordered dictionaries *)
Section PyDictFacts.
Context {V : Type}.
Implicit Types (d : PyDict.t V) (k : string) (v : V).

Lemma pydict_get_set_eq d k v : PyDict.get k (PyDict.set k v d) = Some v.
Proof.
  induction d as [|[k' v'] d IH]; simpl.
  - by rewrite String.eqb_refl.
  - destruct (String.eqb k k') eqn:E; simpl.
    + by rewrite String.eqb_refl.
    + by rewrite E.
Qed.

Lemma pydict_get_set_ne d k k' v :
  k ≠ k' → PyDict.get k' (PyDict.set k v d) = PyDict.get k' d.
Proof.
  intros Hne. induction d as [|[k0 v0] d IH]; simpl.
  - apply String.eqb_neq in Hne. rewrite String.eqb_sym in Hne.
    by rewrite Hne.
  - destruct (String.eqb k k0) eqn:E; simpl.
    + apply String.eqb_eq in E as <-.
      assert (String.eqb k' k = false) as ->; [|done].
      apply String.eqb_neq. congruence.
    + by rewrite IH.
Qed.

Lemma pydict_get_None d k : PyDict.get k d = None ↔ k ∉ PyDict.keys d.
Proof.
  induction d as [|[k0 v0] d IH]; simpl.
  - split; [intros _; apply not_elem_of_nil | done].
  - rewrite not_elem_of_cons. destruct (String.eqb k k0) eqn:E.
    + apply String.eqb_eq in E. split; [done | intros [? _]; done].
    + apply String.eqb_neq in E. rewrite IH. tauto.
Qed.

Lemma pydict_get_Some_key d k v : PyDict.get k d = Some v → k ∈ PyDict.keys d.
Proof.
  intros H. destruct (decide (k ∈ PyDict.keys d)) as [|Hn]; [done|].
  apply pydict_get_None in Hn. congruence.
Qed.

(** Overwriting a key keeps the order of the keys. *)
Lemma pydict_keys_set_present d k v :
  is_Some (PyDict.get k d) → PyDict.keys (PyDict.set k v d) = PyDict.keys d.
Proof.
  induction d as [|[k0 v0] d IH]; simpl; intros [x Hx]; [done|].
  destruct (String.eqb k k0) eqn:E; simpl.
  - apply String.eqb_eq in E. by subst.
  - f_equal. apply IH. eauto.
Qed.

(** A new key goes to the end. *)
Lemma pydict_keys_set_absent d k v :
  PyDict.get k d = None → PyDict.keys (PyDict.set k v d) = (PyDict.keys d ++ [k])%list.
Proof.
  induction d as [|[k0 v0] d IH]; simpl; intros H; [done|].
  destruct (String.eqb k k0) eqn:E; [done|]. simpl. f_equal. by apply IH.
Qed.

Lemma pydict_len_keys d : PyDict.len d = length (PyDict.keys d).
Proof. unfold PyDict.len, PyDict.keys. by rewrite length_map. Qed.

Lemma pydict_len_set_present d k v :
  is_Some (PyDict.get k d) → PyDict.len (PyDict.set k v d) = PyDict.len d.
Proof.
  intros H. by rewrite !pydict_len_keys, pydict_keys_set_present.
Qed.

Lemma pydict_keys_set_NoDup d k v :
  NoDup (PyDict.keys d) → NoDup (PyDict.keys (PyDict.set k v d)).
Proof.
  intros Hd. destruct (PyDict.get k d) as [x|] eqn:E.
  - rewrite pydict_keys_set_present; eauto.
  - rewrite pydict_keys_set_absent by done.
    apply NoDup_app. split_and!; [done | | apply NoDup_singleton].
    intros y Hy ->%list_elem_of_singleton. by apply pydict_get_None in E.
Qed.
End PyDictFacts.

(** ** The loop body *)

Lemma find_agent_None {A} aid (agents : gmap string A) :
  find_agent aid agents = None ↔ ∀ a, aid = Some a → agents !! a = None.
Proof.
  unfold find_agent. destruct aid as [a|].
  - destruct (agents !! a) eqn:E; split; try done.
    + intros H. specialize (H a eq_refl). congruence.
    + intros _ a' [= <-]. done.
  - split; [intros _ a; discriminate | done].
Qed.

Lemma find_agent_Some {A} aid (agents : gmap string A) key agent :
  find_agent aid agents = Some (key, agent) ↔
  aid = Some key ∧ agents !! key = Some agent.
Proof.
  unfold find_agent. destruct aid as [a|].
  - destruct (agents !! a) eqn:E.
    + split; [intros [= <- <-]; done | intros [[= <-] H]; congruence].
    + split; [done | intros [[= <-] H]; congruence].
  - split; [done | intros [? _]; done].
Qed.

Lemma execute_step_absent agents step w :
  find_agent (step_agent_id step) agents = None →
  execute_step agents step w =
    (outcome_agent_not_found (step_agent_id step), w).
Proof. intros H. unfold execute_step. by rewrite H. Qed.

Lemma execute_step_dispatched agents step key agent w :
  find_agent (step_agent_id step) agents = Some (key, agent) →
  let task := task_of_step (uuid_src w (uuid_pos w)) step in
  let r := execute_task agent task (memory w) in
  execute_step agents step w =
    (outcome_of_result (step_agent_id step) (opt_str (step_task_type step)) (fst r),
     mkWorld (clock w) (clock_pos w) (uuid_src w) (S (uuid_pos w))
             (snd r) (log w) (calls w ++ [(key, task)])).
Proof.
  intros H. unfold execute_step. rewrite H. simpl.
  unfold bind, uuid4_str, call_execute_task, ret. simpl.
  by destruct (execute_task agent _ (memory w)).
Qed.

(** ** The loop *)

Lemma execute_steps_cons agents step rest acc w :
  execute_steps agents (step :: rest) acc w =
    execute_steps agents rest (acc ++ [fst (execute_step agents step w)])
                  (snd (execute_step agents step w)).
Proof. simpl. unfold bind. by destruct (execute_step agents step w). Qed.





Lemma dispatched_cons agents step rest :
  dispatched agents (step :: rest) =
    (dispatched agents [step] ++ dispatched agents rest)%list.
Proof.
  unfold dispatched. simpl.
  by destruct (find_agent (step_agent_id step) agents).
Qed.

Lemma dispatched_app agents pre post :
  dispatched agents (pre ++ post) =
    (dispatched agents pre ++ dispatched agents post)%list.
Proof. unfold dispatched. apply omap_app. Qed.

Lemma tasks_sent_app uuid_of first ds1 ds2 :
  tasks_sent uuid_of first (ds1 ++ ds2) =
    (tasks_sent uuid_of first ds1 ++
     tasks_sent uuid_of (first + length ds1) ds2)%list.
Proof.
  unfold tasks_sent. rewrite imap_app. f_equal.
  apply imap_ext. intros j x _. simpl. do 3 f_equal. lia.
Qed.


Lemma tasks_sent_lookup uuid_of first ds i key step :
  ds !! i = Some (key, step) →
  tasks_sent uuid_of first ds !! i =
    Some (key, task_of_step (uuid_of (first + i)) step).
Proof. intros H. unfold tasks_sent. rewrite list_lookup_imap, H. done. Qed.

(** What one iteration leaves in the world. *)
Lemma execute_step_world agents step w :
  let w' := snd (execute_step agents step w) in
  clock w' = clock w ∧ clock_pos w' = clock_pos w ∧
  uuid_src w' = uuid_src w ∧ log w' = log w ∧
  uuid_pos w' = uuid_pos w + length (dispatched agents [step]) ∧
  calls w' = (calls w ++
              tasks_sent (uuid_src w) (uuid_pos w) (dispatched agents [step]))%list.
Proof.
  cbv zeta. unfold dispatched, tasks_sent. simpl.
  destruct (find_agent (step_agent_id step) agents) as [[key agent]|] eqn:E.
  - pose proof (execute_step_dispatched agents step key agent w E) as Hs.
    simpl in Hs. rewrite Hs. simpl. rewrite Nat.add_0_r.
    repeat split; lia.
  - rewrite (execute_step_absent agents step w E). simpl.
    rewrite app_nil_r. repeat split; lia.
Qed.

(** What a run leaves in the world: the clock and the log are not touched,
    the uuid generator advances once per dispatched step, and the trace grows
    by the tasks sent to these steps' agents. *)
Lemma execute_steps_world agents stps acc w :
  let w' := snd (execute_steps agents stps acc w) in
  clock w' = clock w ∧ clock_pos w' = clock_pos w ∧
  uuid_src w' = uuid_src w ∧ log w' = log w ∧
  uuid_pos w' = uuid_pos w + length (dispatched agents stps) ∧
  calls w' = (calls w ++
              tasks_sent (uuid_src w) (uuid_pos w) (dispatched agents stps))%list.
Proof.
  revert acc w. induction stps as [|step rest IH]; intros acc w; cbv zeta.
  - simpl. unfold tasks_sent. simpl. rewrite app_nil_r. repeat split; lia.
  - rewrite execute_steps_cons.
    destruct (execute_step_world agents step w) as (Hc1 & Hp1 & Hu1 & Hl1 & Hn1 & Ht1).
    destruct (IH (acc ++ [fst (execute_step agents step w)])%list
                 (snd (execute_step agents step w)))
      as (Hc & Hp & Hu & Hl & Hn & Ht).
    rewrite Hc, Hp, Hu, Hl, Hn, Ht, Hc1, Hp1, Hu1, Hl1, Hn1, Ht1.
    rewrite (dispatched_cons agents step rest), tasks_sent_app, length_app.
    rewrite <- app_assoc. repeat split; try reflexivity; lia.
Qed.

(** ** Whole runs *)

(** The sample workflow: the first step succeeds, the second names an agent
    that is not registered, the third still runs. *)
Example execute_workflow_sample :
  (execute_workflow "W1" Sample.pool Sample.engine1 Sample.world).1.1 =
    PDict [("workflow_id", PStr "W1");
           ("started_at", PStr "2024-05-01T10:00:00");
           ("steps", PList [
              PDict [("agent_id", PStr "echo"); ("task_type", PStr "greet");
                     ("status", PStr "completed");
                     ("result", PDict [("who", PStr "world")]);
                     ("execution_time", PFloat 3 (-8))];
              PDict [("agent_id", PStr "ghost"); ("status", PStr "failed");
                     ("error", PStr "Agent not found")];
              PDict [("agent_id", PStr "counter"); ("task_type", PNone);
                     ("status", PStr "completed"); ("result", PInt 0);
                     ("execution_time", PFloat 5 (-8))]]);
           ("completed_at", PStr "2024-05-01T10:00:01")].
Proof. reflexivity. Qed.

(** A stateful agent sees the steps one after the other. *)
Example execute_steps_counter_sample :
  (execute_steps Sample.pool [Sample.step_count; Sample.step_count] []
                 Sample.world).1 =
    [PDict [("agent_id", PStr "counter"); ("task_type", PNone);
            ("status", PStr "completed"); ("result", PInt 0);
            ("execution_time", PFloat 5 (-8))];
     PDict [("agent_id", PStr "counter"); ("task_type", PNone);
            ("status", PStr "completed"); ("result", PInt 1);
            ("execution_time", PFloat 5 (-8))]].
Proof. reflexivity. Qed.

Lemma execute_workflow_world_aux agents stps w :
  let w2 := snd (execute_steps agents stps [] (snd (now_isoformat w))) in
  clock w2 = clock w ∧ clock_pos w2 = S (clock_pos w).
Proof.
  cbv zeta.
  destruct (execute_steps_world agents stps [] (snd (now_isoformat w)))
    as (Hc & Hp & _).
  by rewrite Hc, Hp.
Qed.

Lemma execute_workflow_absent wid agents self w :
  PyDict.get wid (workflows self) = None →
  execute_workflow wid agents self w = (workflow_not_found, self, w).
Proof. intros H. unfold execute_workflow. by rewrite H. Qed.

Lemma execute_workflow_present wid agents self w workflow :
  PyDict.get wid (workflows self) = Some workflow →
  let run := execute_steps agents (steps workflow) [] (snd (now_isoformat w)) in
  let execution :=
    execution_record wid (clock w (clock_pos w)) (fst run)
                     (clock w (S (clock_pos w))) in
  execute_workflow wid agents self w =
    (execution,
     mkEngine (workflows self) (execution_history self ++ [execution]),
     snd (now_isoformat (snd run))).
Proof.
  intros H. cbv zeta. unfold execute_workflow. rewrite H.
  unfold bind at 1. unfold now_isoformat at 1.
  unfold bind at 1.
  destruct (execute_workflow_world_aux agents (steps workflow) w) as (Hc & Hp).
  unfold now_isoformat at 3. simpl.
  destruct (execute_steps agents (steps workflow) [] _) as [outs w2] eqn:E.
  unfold bind, ret, now_isoformat. simpl in *. by rewrite Hc, Hp.
Qed.

Lemma execute_workflow_workflows wid agents self w :
  workflows (execute_workflow wid agents self w).1.2 = workflows self.
Proof.
  destruct (PyDict.get wid (workflows self)) as [workflow|] eqn:E.
  - by rewrite (execute_workflow_present _ _ _ _ _ E).
  - by rewrite (execute_workflow_absent _ _ _ _ E).
Qed.


(** ** The definition store *)

Lemma define_workflow_eq wid nm stps self w :
  define_workflow wid nm stps self w =
    (mkWorkflow wid nm stps (clock w (clock_pos w)),
     mkEngine (PyDict.set wid (mkWorkflow wid nm stps (clock w (clock_pos w)))
                          (workflows self))
              (execution_history self),
     snd (logger_info ("Workflow defined: " ++ nm) (snd (now_isoformat w)))).
Proof. reflexivity. Qed.

(** C1, as stated, fails: [define_workflow] has no duplicate check. Defining
    W1 a second time returns the new definition, and the steps stored under
    W1 are the new ones, not the original ones. *)
Lemma define_workflow_duplicate_not_rejected :
  let first := define_workflow "W1" "first" [Sample.step_a]
                               (mkEngine PyDict.empty []) Sample.world in
  let second := define_workflow "W1" "second" [Sample.step_ghost]
                                first.1.2 first.2 in
  PyDict.contains "W1" (workflows first.1.2) = true ∧
  steps second.1.1 = [Sample.step_ghost] ∧
  steps <$> PyDict.get "W1" (workflows first.1.2) = Some [Sample.step_a] ∧
  steps <$> PyDict.get "W1" (workflows second.1.2) ≠
    steps <$> PyDict.get "W1" (workflows first.1.2).
Proof. vm_compute. repeat split; discriminate. Qed.

(** C1, amended: [define_workflow] never fails. Called with an id that is
    already stored, it returns the new definition and stores it in place of
    the earlier one: the id keeps its position in the key order, the number of
    definitions and every other definition are unchanged, and so is the
    ledger. *)
Theorem define_workflow_overwrites_existing wid nm stps self w :
  is_Some (PyDict.get wid (workflows self)) →
  let r := define_workflow wid nm stps self w in
  r.1.1 = mkWorkflow wid nm stps (clock w (clock_pos w)) ∧
  PyDict.get wid (workflows r.1.2) = Some r.1.1 ∧
  PyDict.keys (workflows r.1.2) = PyDict.keys (workflows self) ∧
  PyDict.len (workflows r.1.2) = PyDict.len (workflows self) ∧
  (∀ k, k ≠ wid →
        PyDict.get k (workflows r.1.2) = PyDict.get k (workflows self)) ∧
  execution_history r.1.2 = execution_history self.
Proof.
  intros Hin. cbv zeta. rewrite define_workflow_eq. simpl.
  split_and!; try done.
  - apply pydict_get_set_eq.
  - by apply pydict_keys_set_present.
  - by apply pydict_len_set_present.
  - intros k Hk. apply pydict_get_set_ne. congruence.
Qed.

Lemma define_workflow_overwrites_existing_witness :
  let r := define_workflow "W1" "second" [Sample.step_broken]
                           Sample.engine1 Sample.world in
  PyDict.get "W1" (workflows r.1.2) = Some r.1.1 ∧
  PyDict.keys (workflows r.1.2) = ["W1"].
Proof.
  cbv zeta.
  destruct (define_workflow_overwrites_existing "W1" "second"
              [Sample.step_broken] Sample.engine1 Sample.world)
    as (_ & Hget & Hkeys & _).
  - vm_compute. eauto.
  - split; [exact Hget | exact Hkeys].
Defined.

(** ** Running a workflow *)




Lemma world_before_0 agents stps w : world_before agents stps 0 w = w.
Proof. reflexivity. Qed.




Lemma find_agent_lookup {A} aid (agents : gmap string A) :
  find_agent aid agents =
    match aid with
    | Some key => (fun agent => (key, agent)) <$> agents !! key
    | None => None
    end.
Proof. unfold find_agent. destruct aid as [key|]; [|done]. by destruct (agents !! key). Qed.



(** ** Step outcomes *)

Lemma execute_step_status_ok agents step w :
  status_ok (execute_step agents step w).1.
Proof.
  unfold status_ok, status_values.
  destruct (find_agent (step_agent_id step) agents) as [[key agent]|] eqn:E.
  - pose proof (execute_step_dispatched _ _ _ _ w E) as Hs. simpl in Hs.
    rewrite Hs. simpl.
    destruct (success _); eexists; (split; [reflexivity|]); set_solver.
  - rewrite (execute_step_absent _ _ _ E). simpl.
    eexists; (split; [reflexivity|]); set_solver.
Qed.

Lemma execute_steps_Forall (P : pyval → Prop) agents stps acc w :
  (∀ step v, P (execute_step agents step v).1) →
  Forall P acc → Forall P (execute_steps agents stps acc w).1.
Proof.
  intros Hstep. revert acc w.
  induction stps as [|step rest IH]; intros acc w Hacc; [done|].
  rewrite execute_steps_cons. apply IH.
  apply Forall_app. split; [done|]. by apply Forall_singleton.
Qed.

(** C7, as stated, fails on "contains the step id": the outcome of a
    dispatched step holds the agent id and the task type only. Two steps that
    differ in their step id and in nothing else get the same outcome, and the
    outcome has no entry for a step id. *)
Lemma outcome_has_no_step_id :
  PyDict.get "step_id" (step_rest Sample.step_a) = Some (PStr "A") ∧
  PyDict.get "step_id" (step_rest Sample.step_b) = Some (PStr "B") ∧
  (execute_step Sample.pool Sample.step_a Sample.world).1 =
    (execute_step Sample.pool Sample.step_b Sample.world).1 ∧
  py_get "step_id" (execute_step Sample.pool Sample.step_a Sample.world).1 = None ∧
  PStr "A" ∉ (py_values (execute_step Sample.pool Sample.step_a Sample.world).1).
Proof.
  vm_compute. split_and!; try reflexivity.
  intros H. repeat (apply elem_of_cons in H as [H|H]; [discriminate H|]).
  by apply elem_of_nil in H.
Qed.

(** C7, amended: the outcome recorded for a step that is dispatched to an
    agent has the status "completed" if the agent's result has success true
    and "failed" otherwise, holds the step's agent id and task type (it holds
    no step id), and holds the result payload and the execution duration
    whatever the outcome; and every status recorded in a run is one of
    completed, failed, skipped. *)
Theorem execute_step_outcome_of_dispatch agents step key agent w :
  step_agent_id step = Some key →
  agents !! key = Some agent →
  let r := (execute_task agent (task_of_step (uuid_src w (uuid_pos w)) step)
                         (memory w)).1 in
  let o := (execute_step agents step w).1 in
  py_keys o = ["agent_id"; "task_type"; "status"; "result"; "execution_time"] ∧
  py_get "status" o =
    Some (PStr (if success r then "completed" else "failed")) ∧
  py_get "agent_id" o = Some (PStr key) ∧
  py_get "task_type" o = Some (opt_str (step_task_type step)) ∧
  py_get "result" o = Some (result r) ∧
  py_get "execution_time" o = Some (execution_time r) ∧
  ∀ stps v, Forall status_ok (execute_steps agents stps [] v).1.
Proof.
  intros Hid Hag. cbv zeta.
  assert (find_agent (step_agent_id step) agents = Some (key, agent)) as E
    by by apply find_agent_Some.
  pose proof (execute_step_dispatched _ _ _ _ w E) as Hs. simpl in Hs.
  rewrite Hs, Hid. simpl. split_and!; try reflexivity.
  intros stps v. apply execute_steps_Forall; [|done].
  apply execute_step_status_ok.
Qed.

Lemma execute_step_outcome_of_dispatch_witness :
  py_get "status"
    (execute_step Sample.pool Sample.step_broken Sample.world).1 =
    Some (PStr "failed") ∧
  py_get "execution_time"
    (execute_step Sample.pool Sample.step_broken Sample.world).1 =
    Some (PFloat 1 (-8)).
Proof.
  destruct (execute_step_outcome_of_dispatch Sample.pool Sample.step_broken
              "broken" Sample.broken Sample.world eq_refl)
    as (_ & Hstatus & _ & _ & _ & Htime & _).
  - vm_compute. reflexivity.
  - split; [exact Hstatus | exact Htime].
Defined.

(** ** Tasks handed to the agents *)







(** ** Statistics *)

Example get_stats_sample :
  get_stats Sample.engine1 =
    PDict [("workflows_defined", PInt 1); ("workflows_executed", PInt 0);
           ("workflows", PList [PStr "W1"])].
Proof. reflexivity. Qed.

Example first_occurrences_sample :
  first_occurrences ["W1"; "W2"; "W1"; "W3"; "W2"] = ["W1"; "W2"; "W3"].
Proof. reflexivity. Qed.

Lemma first_occurrences_elem ids k : k ∈ first_occurrences ids ↔ k ∈ ids.
Proof.
  induction ids as [|k0 ids IH]; simpl; [done|].
  rewrite !elem_of_cons, list_elem_of_filter, IH.
  destruct (decide (k = k0)); tauto.
Qed.

Lemma first_occurrences_NoDup ids : NoDup (first_occurrences ids).
Proof.
  induction ids as [|k0 ids IH]; simpl; [constructor|].
  apply NoDup_cons. split; [|by apply NoDup_filter].
  rewrite list_elem_of_filter. intros [Hne _]. by apply Hne.
Qed.

Lemma do_calls_cons c rest self w :
  do_calls (c :: rest) self w =
    do_calls rest (do_call c self w).1 (do_call c self w).2.
Proof. simpl. unfold bind. by destruct (do_call c self w). Qed.

Lemma do_call_define_workflows wid nm stps self w :
  workflows (do_call (CallDefine wid nm stps) self w).1 =
    PyDict.set wid (mkWorkflow wid nm stps (clock w (clock_pos w)))
               (workflows self).
Proof. reflexivity. Qed.

Lemma do_call_execute_workflows wid agents self w :
  workflows (do_call (CallExecute wid agents) self w).1 = workflows self.
Proof.
  simpl. unfold bind, ret.
  pose proof (execute_workflow_workflows wid agents self w) as H.
  by destruct (execute_workflow wid agents self w) as [[res self'] w'].
Qed.

(** The keys after a history of calls: the keys that were there, then the
    new ids in the order of their first definition. *)
Lemma do_calls_keys cs self w :
  PyDict.keys (workflows (do_calls cs self w).1) =
    (PyDict.keys (workflows self) ++
     filter (fun x => x ∉ PyDict.keys (workflows self))
            (first_occurrences (defined_ids cs)))%list.
Proof.
  revert self w. induction cs as [|c rest IH]; intros self w.
  - simpl. by rewrite app_nil_r.
  - rewrite do_calls_cons, IH. destruct c as [wid nm stps|wid agents].
    + rewrite do_call_define_workflows. simpl.
      set (wf := mkWorkflow wid nm stps _).
      destruct (PyDict.get wid (workflows self)) as [old|] eqn:E.
      * rewrite pydict_keys_set_present by eauto.
        apply pydict_get_Some_key in E.
        rewrite filter_cons_False by (intros Hn; by apply Hn).
        f_equal. rewrite list_filter_filter.
        apply list_filter_iff. intros x. split; [|tauto].
        intros Hx. split; [done|]. intros ->. done.
      * rewrite pydict_keys_set_absent by done.
        apply pydict_get_None in E.
        rewrite filter_cons_True by done.
        rewrite <- app_assoc. simpl. do 2 f_equal.
        rewrite list_filter_filter.
        apply list_filter_iff. intros x.
        rewrite not_elem_of_app, list_elem_of_singleton. tauto.
    + by rewrite do_call_execute_workflows.
Qed.

Lemma engine_init_do_calls_keys cs w :
  PyDict.keys (workflows (bind engine_init (do_calls cs) w).1) =
    first_occurrences (defined_ids cs).
Proof.
  unfold bind, engine_init, ret. simpl. rewrite do_calls_keys. simpl.
  induction (first_occurrences (defined_ids cs)) as [|x l IH]; [done|].
  rewrite filter_cons_True by apply not_elem_of_nil. by f_equal.
Qed.

(** C8: [get_stats] reports the number of stored definitions, the number of
    ledger entries and the stored ids in key order; on an engine that was
    created and then used through any history of [define_workflow] and
    [execute_workflow] calls, the stored ids are exactly the defined ids,
    each once, in the order in which they were first defined. *)
Theorem get_stats_counts_and_order :
  (∀ self,
     py_keys (get_stats self) =
       ["workflows_defined"; "workflows_executed"; "workflows"] ∧
     py_get "workflows_defined" (get_stats self) =
       Some (PInt (Z.of_nat (PyDict.len (workflows self)))) ∧
     py_get "workflows_executed" (get_stats self) =
       Some (PInt (Z.of_nat (length (execution_history self)))) ∧
     py_get "workflows" (get_stats self) =
       Some (PList (PStr <$> PyDict.keys (workflows self)))) ∧
  (∀ cs w,
     let self := (bind engine_init (do_calls cs) w).1 in
     py_get "workflows" (get_stats self) =
       Some (PList (PStr <$> first_occurrences (defined_ids cs))) ∧
     py_get "workflows_defined" (get_stats self) =
       Some (PInt (Z.of_nat (length (first_occurrences (defined_ids cs))))) ∧
     NoDup (PyDict.keys (workflows self)) ∧
     ∀ k, is_Some (PyDict.get k (workflows self)) ↔ k ∈ defined_ids cs).
Proof.
  split; [intros self; split_and!; reflexivity|].
  intros cs w. cbv zeta.
  pose proof (engine_init_do_calls_keys cs w) as Hkeys.
  set (self := (bind engine_init (do_calls cs) w).1) in *.
  simpl. rewrite pydict_len_keys, Hkeys.
  split_and!; try reflexivity.
  - apply first_occurrences_NoDup.
  - intros k. rewrite <- first_occurrences_elem, <- Hkeys.
    rewrite <- not_eq_None_Some, pydict_get_None.
    destruct (decide (k ∈ PyDict.keys (workflows self))); tauto.
Qed.

(** ** Registering agents *)

(** C10: [register_agent] returns [True] for every agent and stores the agent
    under its [agent_id]; the agents under other ids and the workflow engine
    are unchanged, and when the id was registered before, the new agent takes
    the earlier one's place and the number of agents stays the same. *)
Theorem register_agent_last_wins agent self w :
  let r := register_agent agent self w in
  r.1.1 = true ∧
  agents r.1.2 !! agent_id agent = Some agent ∧
  (∀ k, k ≠ agent_id agent → agents r.1.2 !! k = agents self !! k) ∧
  (is_Some (agents self !! agent_id agent) →
   size (agents r.1.2) = size (agents self)) ∧
  workflow_engine r.1.2 = workflow_engine self.
Proof.
  cbv zeta. unfold register_agent, bind, ret. simpl. split_and!.
  - done.
  - apply lookup_insert_eq.
  - intros k Hk. by apply lookup_insert_ne.
  - apply map_size_insert_Some.
  - done.
Qed.

Lemma register_agent_last_wins_witness :
  let r := register_agent Sample.echo2 Sample.orchestrator Sample.world in
  agents r.1.2 !! "echo" = Some Sample.echo2 ∧
  agents Sample.orchestrator !! "echo" = Some Sample.echo ∧
  size (agents r.1.2) = 3.
Proof.
  cbv zeta.
  destruct (register_agent_last_wins Sample.echo2 Sample.orchestrator
              Sample.world) as (_ & Hget & _ & Hsize & _).
  split_and!.
  - exact Hget.
  - reflexivity.
  - rewrite Hsize; [reflexivity|]. vm_compute. eauto.
Defined.

(** * Further properties of the engine *)

(** ** Defining workflows *)

Lemma pydict_len_set_absent {V} (d : PyDict.t V) k v :
  PyDict.get k d = None → PyDict.len (PyDict.set k v d) = S (PyDict.len d).
Proof.
  intros H. rewrite !pydict_len_keys, pydict_keys_set_absent by done.
  rewrite length_app. simpl. lia.
Qed.

(** X1: [define_workflow] with an id that is not stored yet adds the
    definition at the end of the key order: the store grows by one, the new id
    is looked up to the returned definition, whose creation time is the clock
    reading of the call, and all other definitions and the ledger stay. *)
Theorem define_workflow_fresh_id wid nm stps self w :
  PyDict.get wid (workflows self) = None →
  let r := define_workflow wid nm stps self w in
  PyDict.get wid (workflows r.1.2) = Some r.1.1 ∧
  created_at r.1.1 = clock w (clock_pos w) ∧
  PyDict.keys (workflows r.1.2) = (PyDict.keys (workflows self) ++ [wid])%list ∧
  PyDict.len (workflows r.1.2) = S (PyDict.len (workflows self)) ∧
  (∀ k, k ≠ wid →
        PyDict.get k (workflows r.1.2) = PyDict.get k (workflows self)) ∧
  execution_history r.1.2 = execution_history self.
Proof.
  intros Hfresh. cbv zeta. rewrite define_workflow_eq. simpl.
  split_and!; try done.
  - apply pydict_get_set_eq.
  - by apply pydict_keys_set_absent.
  - by apply pydict_len_set_absent.
  - intros k Hk. apply pydict_get_set_ne. congruence.
Qed.

Lemma define_workflow_fresh_id_witness :
  PyDict.keys
    (workflows (define_workflow "W2" "other" [Sample.step_ghost]
                                Sample.engine1 Sample.world).1.2) =
    ["W1"; "W2"].
Proof.
  destruct (define_workflow_fresh_id "W2" "other" [Sample.step_ghost]
              Sample.engine1 Sample.world eq_refl)
    as (_ & _ & Hkeys & _).
  exact Hkeys.
Defined.


Lemma do_calls_definition cs self w k :
  definition_content <$> PyDict.get k (workflows (do_calls cs self w).1) =
    match last_definition k cs with
    | Some d => Some (k, d.1, d.2)
    | None => definition_content <$> PyDict.get k (workflows self)
    end.
Proof.
  revert self w. induction cs as [|c rest IH]; intros self w; [done|].
  rewrite do_calls_cons, IH. simpl.
  destruct (last_definition k rest) as [d|]; [done|].
  destruct c as [wid nm stps|wid agents].
  - rewrite do_call_define_workflows. case_bool_decide as Hk.
    + subst k. by rewrite pydict_get_set_eq.
    + by rewrite pydict_get_set_ne.
  - by rewrite do_call_execute_workflows.
Qed.

(** X3: on an engine that was created and then used through any history of
    [define_workflow] and [execute_workflow] calls, the definition stored
    under an id carries that id and the name and steps of the last
    [define_workflow] call for it, and an id that was never defined is not
    stored; runs in between change nothing of it. *)
Theorem stored_definition_is_last_defined cs w k :
  definition_content <$>
    PyDict.get k (workflows (bind engine_init (do_calls cs) w).1) =
  (fun d : string * list Step => (k, d.1, d.2)) <$> last_definition k cs.
Proof.
  unfold bind, engine_init, ret. simpl. rewrite do_calls_definition. simpl.
  by destruct (last_definition k cs).
Qed.

Example stored_definition_sample :
  definition_content <$>
    PyDict.get "W1"
      (workflows (bind engine_init (do_calls Sample.history) Sample.world).1) =
  Some ("W1", "second", [Sample.step_broken; Sample.step_count]).
Proof. reflexivity. Qed.

(** ** What a run reads and writes *)



Lemma execute_steps_all_absent agents stps acc w :
  (∀ step a, step ∈ stps → step_agent_id step = Some a → agents !! a = None) →
  execute_steps agents stps acc w =
    ((acc ++ ((fun step => outcome_agent_not_found (step_agent_id step)) <$>
              stps))%list,
     w).
Proof.
  revert acc. induction stps as [|step rest IH]; intros acc Habs.
  - simpl. by rewrite app_nil_r.
  - rewrite execute_steps_cons.
    assert (find_agent (step_agent_id step) agents = None) as E.
    { apply find_agent_None. intros a. apply Habs. apply elem_of_cons. by left. }
    rewrite (execute_step_absent _ _ _ E). simpl. rewrite IH.
    + by rewrite <- app_assoc.
    + intros s a Hs. apply Habs. apply elem_of_cons. by right.
Qed.

(** X5: when none of a workflow's steps names a registered agent (for
    instance when [agents] is empty), the run still completes: every step is
    recorded as failed with "Agent not found", in order, no agent is called,
    no uuid is drawn and the agents' state is untouched. *)
Theorem execute_workflow_no_agent_registered wid agents self w workflow :
  PyDict.get wid (workflows self) = Some workflow →
  (∀ step a, step ∈ steps workflow → step_agent_id step = Some a →
             agents !! a = None) →
  let r := execute_workflow wid agents self w in
  py_get "steps" r.1.1 =
    Some (PList ((fun step => outcome_agent_not_found (step_agent_id step)) <$>
                 steps workflow)) ∧
  calls r.2 = calls w ∧ uuid_pos r.2 = uuid_pos w ∧ memory r.2 = memory w.
Proof.
  intros Hwf Habs. cbv zeta.
  rewrite (execute_workflow_present _ _ _ _ _ Hwf). cbn [fst snd].
  rewrite (execute_steps_all_absent _ _ _ _ Habs). done.
Qed.

Lemma execute_workflow_no_agent_registered_witness :
  py_get "steps"
    (execute_workflow "W1" ∅ Sample.engine1 Sample.world).1.1 =
  Some (PList [outcome_agent_not_found (Some "echo");
               outcome_agent_not_found (Some "ghost");
               outcome_agent_not_found (Some "counter")]).
Proof.
  destruct (execute_workflow_no_agent_registered "W1" ∅ Sample.engine1
              Sample.world _ eq_refl) as (Hsteps & _).
  - intros step a _ _. apply lookup_empty.
  - exact Hsteps.
Defined.

Lemma find_agent_ext aid (agents1 agents2 : gmap string Agent) :
  (∀ a, aid = Some a → agents1 !! a = agents2 !! a) →
  find_agent aid agents1 = find_agent aid agents2.
Proof.
  intros H. unfold find_agent. destruct aid as [a|]; [|done].
  by rewrite (H a eq_refl).
Qed.

Lemma execute_steps_agents_ext agents1 agents2 stps acc w :
  (∀ step a, step ∈ stps → step_agent_id step = Some a →
             agents1 !! a = agents2 !! a) →
  execute_steps agents1 stps acc w = execute_steps agents2 stps acc w.
Proof.
  revert acc w. induction stps as [|step rest IH]; intros acc w Hagree; [done|].
  rewrite !execute_steps_cons.
  assert (execute_step agents1 step w = execute_step agents2 step w) as ->.
  { unfold execute_step. rewrite (find_agent_ext _ agents1 agents2); [done|].
    intros a. apply Hagree. apply elem_of_cons. by left. }
  apply IH. intros s a Hs. apply Hagree. apply elem_of_cons. by right.
Qed.

(** X6: a run depends on [agents] only through the ids its steps name: two
    agent maps that agree on these ids give the same record, the same engine
    and the same world, whatever else they hold. *)
Theorem execute_workflow_ignores_other_agents
    wid agents1 agents2 self w workflow :
  PyDict.get wid (workflows self) = Some workflow →
  (∀ step a, step ∈ steps workflow → step_agent_id step = Some a →
             agents1 !! a = agents2 !! a) →
  execute_workflow wid agents1 self w = execute_workflow wid agents2 self w.
Proof.
  intros Hwf Hagree.
  rewrite !(execute_workflow_present _ _ _ _ _ Hwf). cbv zeta.
  by rewrite (execute_steps_agents_ext agents1 agents2).
Qed.

Lemma execute_workflow_ignores_other_agents_witness :
  execute_workflow "W1" Sample.pool Sample.engine1 Sample.world =
  execute_workflow "W1" Sample.small_pool Sample.engine1 Sample.world.
Proof.
  apply (execute_workflow_ignores_other_agents "W1" Sample.pool
           Sample.small_pool Sample.engine1 Sample.world _ eq_refl).
  intros step a Hin Hid. simpl in Hin.
  repeat (apply elem_of_cons in Hin as [->|Hin];
          [injection Hid as <-; vm_compute; reflexivity|]).
  by apply elem_of_nil in Hin.
Defined.

(** X7: in the outcome of a step the entry "error" is present exactly when
    the step's agent is not found, and then it is "Agent not found"; the
    entries "result" and "execution_time" are present exactly when the agent
    is found. A task that fails inside its agent is recorded with status
    failed and no "error" entry: the agent's own error text is not kept. *)
Theorem outcome_error_iff_agent_missing agents step w :
  let o := (execute_step agents step w).1 in
  (is_Some (py_get "error" o) ↔
   find_agent (step_agent_id step) agents = None) ∧
  (∀ e, py_get "error" o = Some e → e = PStr "Agent not found") ∧
  (is_Some (py_get "result" o) ↔
   is_Some (find_agent (step_agent_id step) agents)) ∧
  (is_Some (py_get "execution_time" o) ↔
   is_Some (find_agent (step_agent_id step) agents)).
Proof.
  cbv zeta.
  destruct (find_agent (step_agent_id step) agents) as [[key agent]|] eqn:E.
  - pose proof (execute_step_dispatched _ _ _ _ w E) as Hs. simpl in Hs.
    rewrite Hs. simpl. split_and!.
    + split; [intros [? ?]; done | done].
    + done.
    + split; eauto.
    + split; eauto.
  - rewrite (execute_step_absent _ _ _ E). simpl. split_and!.
    + split; eauto.
    + by intros e [= <-].
    + split; intros [? ?]; done.
    + split; intros [? ?]; done.
Qed.

Example outcome_failed_without_error :
  py_get "status"
    (execute_step Sample.pool Sample.step_broken Sample.world).1 =
    Some (PStr "failed") ∧
  py_get "error"
    (execute_step Sample.pool Sample.step_broken Sample.world).1 = None.
Proof. split; reflexivity. Qed.

(** ** The ledger over a history of calls *)



Lemma do_call_define_history wid nm stps self w :
  execution_history (do_call (CallDefine wid nm stps) self w).1 =
    execution_history self.
Proof. reflexivity. Qed.

Lemma do_call_execute_history wid agents self w :
  execution_history (do_call (CallExecute wid agents) self w).1 =
    match PyDict.get wid (workflows self) with
    | Some _ =>
        (execution_history self ++ [(execute_workflow wid agents self w).1.1])%list
    | None => execution_history self
    end.
Proof.
  simpl. unfold bind, ret.
  destruct (PyDict.get wid (workflows self)) as [workflow|] eqn:E.
  - pose proof (execute_workflow_present _ agents _ w _ E) as H. cbv zeta in H.
    rewrite H. done.
  - by rewrite (execute_workflow_absent _ _ _ _ E).
Qed.


Lemma engine_init_bind cs w :
  bind engine_init (do_calls cs) w =
    do_calls cs (mkEngine PyDict.empty [])
             (logger_info "Workflow Engine initialized" w).2.
Proof. reflexivity. Qed.


Example runs_recorded_sample : runs_recorded [] Sample.history = 2.
Proof. reflexivity. Qed.

Lemma entry_of_stored_set store wid wf entry :
  entry_of_stored store entry →
  entry_of_stored (PyDict.set wid wf store) entry.
Proof.
  intros (k & Hk & Hin). exists k. split; [done|].
  destruct (decide (wid = k)) as [->|Hne].
  - rewrite pydict_get_set_eq. eauto.
  - by rewrite pydict_get_set_ne.
Qed.

Lemma do_calls_entries cs self w :
  Forall (entry_of_stored (workflows self)) (execution_history self) →
  Forall (entry_of_stored (workflows (do_calls cs self w).1))
         (execution_history (do_calls cs self w).1).
Proof.
  revert self w. induction cs as [|c rest IH]; intros self w Hinv; [done|].
  rewrite do_calls_cons. apply IH. destruct c as [wid nm stps|wid agents].
  - rewrite do_call_define_history, do_call_define_workflows.
    eapply Forall_impl; [done|]. intros entry. apply entry_of_stored_set.
  - rewrite do_call_execute_history, do_call_execute_workflows.
    destruct (PyDict.get wid (workflows self)) as [workflow|] eqn:E; [|done].
    apply Forall_app. split; [done|]. apply Forall_singleton.
    rewrite (execute_workflow_present _ _ _ _ _ E). cbn [fst].
    exists wid. split; [reflexivity | by rewrite E].
Qed.

(** X9: on an engine used from its creation through any history of calls,
    every ledger entry names a workflow id that is in the store: a run is only
    recorded for a stored id, and ids are never removed. *)
Theorem ledger_entries_name_stored_workflows cs w :
  let self := (bind engine_init (do_calls cs) w).1 in
  Forall (entry_of_stored (workflows self)) (execution_history self).
Proof.
  cbv zeta. rewrite engine_init_bind. apply do_calls_entries. constructor.
Qed.

(** X10: defining a workflow under an id that is already stored does not
    show in the statistics: [get_stats] returns the same counts and the same
    id list as before the call. *)
Theorem get_stats_after_redefine wid nm stps self w :
  is_Some (PyDict.get wid (workflows self)) →
  get_stats (define_workflow wid nm stps self w).1.2 = get_stats self.
Proof.
  intros Hin. rewrite define_workflow_eq. unfold get_stats. simpl.
  by rewrite pydict_len_set_present, pydict_keys_set_present.
Qed.

Lemma get_stats_after_redefine_witness :
  get_stats (define_workflow "W1" "second" [Sample.step_broken]
                             Sample.engine1 Sample.world).1.2 =
  get_stats Sample.engine1.
Proof.
  apply (get_stats_after_redefine "W1" "second" [Sample.step_broken]
           Sample.engine1 Sample.world).
  vm_compute. eauto.
Defined.

(** ** Replaying a workflow *)

Lemma execute_step_replay agents step w1 w2 :
  (∀ key agent, agents !! key = Some agent → replayable agent) →
  (execute_step agents step w1).1 = (execute_step agents step w2).1.
Proof.
  intros Hpure.
  destruct (find_agent (step_agent_id step) agents) as [[key agent]|] eqn:E.
  - pose proof (execute_step_dispatched _ _ _ _ w1 E) as H1.
    pose proof (execute_step_dispatched _ _ _ _ w2 E) as H2.
    cbv zeta in H1, H2. rewrite H1, H2. cbn [fst]. f_equal.
    apply find_agent_Some in E as [_ Hag]. by apply (Hpure key agent Hag).
  - by rewrite !(execute_step_absent _ _ _ E).
Qed.

Lemma execute_steps_replay agents stps acc w1 w2 :
  (∀ key agent, agents !! key = Some agent → replayable agent) →
  (execute_steps agents stps acc w1).1 = (execute_steps agents stps acc w2).1.
Proof.
  intros Hpure. revert acc w1 w2.
  induction stps as [|step rest IH]; intros acc w1 w2; [done|].
  rewrite !execute_steps_cons.
  rewrite (execute_step_replay agents step w1 w2 Hpure). apply IH.
Qed.

(** X11: when the result of every agent in [agents] depends on the type and
    parameters of its task only (not on the task identifier or on the agent's
    state), running a stored workflow again, at any other moment, gives the
    same list of step outcomes; only the timestamps of the record differ. *)
Theorem execute_workflow_replay wid agents self w1 w2 workflow :
  PyDict.get wid (workflows self) = Some workflow →
  (∀ key agent, agents !! key = Some agent → replayable agent) →
  py_get "steps" (execute_workflow wid agents self w1).1.1 =
    py_get "steps" (execute_workflow wid agents self w2).1.1.
Proof.
  intros Hwf Hpure. rewrite !(execute_workflow_present _ _ _ _ _ Hwf).
  cbn [fst]. unfold execution_record, py_get. simpl.
  by rewrite (execute_steps_replay agents _ [] _ (now_isoformat w2).2 Hpure).
Qed.

Lemma execute_workflow_replay_witness :
  py_get "steps"
    (execute_workflow "W1" Sample.stateless_pool Sample.engine1
                      Sample.world).1.1 =
  py_get "steps"
    (execute_workflow "W1" Sample.stateless_pool Sample.engine1
                      Sample.later_world).1.1.
Proof.
  apply (execute_workflow_replay "W1" Sample.stateless_pool Sample.engine1
           Sample.world Sample.later_world _ eq_refl).
  intros key agent H. unfold Sample.stateless_pool in H.
  apply lookup_insert_Some in H as [[_ <-]|[_ H]].
  - intros t1 t2 m1 m2 _ Hp. simpl. by rewrite Hp.
  - apply lookup_insert_Some in H as [[_ <-]|[_ H]].
    + intros t1 t2 m1 m2 _ _. reflexivity.
    + by rewrite lookup_empty in H.
Defined.

(** ** Registering agents, one after the other *)

Lemma register_all_cons agent rest self w :
  register_all (agent :: rest) self w =
    register_all rest (register_agent agent self w).1.2
                 (register_agent agent self w).2.
Proof. reflexivity. Qed.

Lemma register_agent_agents agent self w :
  agents (register_agent agent self w).1.2 =
    <[agent_id agent := agent]> (agents self).
Proof. reflexivity. Qed.

Lemma register_all_lookup ags self w aid :
  agents (register_all ags self w).1 !! aid =
    match last_registered aid ags with
    | Some agent => Some agent
    | None => agents self !! aid
    end.
Proof.
  revert self w. induction ags as [|agent rest IH]; intros self w; [done|].
  rewrite register_all_cons, IH, register_agent_agents.
  unfold last_registered. rewrite filter_cons. case_decide as Hid.
  - rewrite last_cons. destruct (last _); [done|].
    subst aid. apply lookup_insert_eq.
  - destruct (last _); [done|]. by apply lookup_insert_ne.
Qed.

Lemma register_all_dom ags self w :
  dom (agents (register_all ags self w).1) =
    list_to_set (agent_id <$> ags) ∪ dom (agents self).
Proof.
  revert self w. induction ags as [|agent rest IH]; intros self w.
  - simpl. by rewrite (left_id_L ∅ (∪)).
  - rewrite register_all_cons, IH, register_agent_agents, dom_insert_L.
    simpl. rewrite (assoc_L (∪)).
    by rewrite (comm_L (∪) (list_to_set (agent_id <$> rest))).
Qed.

Lemma register_all_engine ags self w :
  workflow_engine (register_all ags self w).1 = workflow_engine self.
Proof.
  revert self w. induction ags as [|agent rest IH]; intros self w; [done|].
  by rewrite register_all_cons, IH.
Qed.

(** X12: after any sequence of [register_agent] calls, the agent found under
    an id is the last one of the sequence that carries this id, and an id
    that no agent of the sequence carries is found as before; the workflow
    engine is not touched. On a new orchestrator the number of agents is the
    number of distinct ids registered. *)
Theorem register_all_last_wins ags :
  (∀ self w aid,
     agents (register_all ags self w).1 !! aid =
       match last_registered aid ags with
       | Some agent => Some agent
       | None => agents self !! aid
       end) ∧
  (∀ self w,
     workflow_engine (register_all ags self w).1 = workflow_engine self) ∧
  (∀ w, size (agents (bind orchestrator_init (register_all ags) w).1) =
        length (remove_dups (agent_id <$> ags))).
Proof.
  split_and!.
  - intros self w aid. apply register_all_lookup.
  - intros self w. apply register_all_engine.
  - intros w.
    change (bind orchestrator_init (register_all ags) w)
      with (register_all ags (orchestrator_init w).1 (orchestrator_init w).2).
    rewrite <- size_dom, register_all_dom.
    change (agents (orchestrator_init w).1) with (∅ : gmap string Agent).
    rewrite dom_empty_L, (right_id_L ∅ (∪)).
    rewrite <- (size_list_to_set (C:=gset string) (remove_dups (agent_id <$> ags)))
      by apply NoDup_remove_dups.
    f_equal. apply set_eq. intros x.
    by rewrite !elem_of_list_to_set, elem_of_remove_dups.
Qed.

Example register_all_sample :
  (fun o => (name <$> agents o !! "echo", size (agents o)))
    (bind orchestrator_init
          (register_all [Sample.echo; Sample.broken; Sample.echo2])
          Sample.world).1 =
  (Some "Echo agent, second edition", 2).
Proof. reflexivity. Qed.

(** X13: once an agent is registered, a step that names its [agent_id] and
    is run with the orchestrator's agents is no longer "Agent not found": it
    is dispatched to that agent, the one registered last under the id. The
    outcome is built from the agent's result, the call is added to the trace
    under the agent's id, and the agents' state becomes what the agent left. *)
Theorem registered_agent_is_dispatched agent self w0 step w :
  step_agent_id step = Some (agent_id agent) →
  let registered := agents (register_agent agent self w0).1.2 in
  let task := task_of_step (uuid_src w (uuid_pos w)) step in
  let r := execute_task agent task (memory w) in
  (execute_step registered step w).1 =
    outcome_of_result (Some (agent_id agent)) (opt_str (step_task_type step))
                      r.1 ∧
  calls (execute_step registered step w).2 =
    (calls w ++ [(agent_id agent, task)])%list ∧
  memory (execute_step registered step w).2 = r.2.
Proof.
  intros Hid. cbv zeta. rewrite register_agent_agents.
  assert (find_agent (step_agent_id step)
            (<[agent_id agent := agent]> (agents self)) =
          Some (agent_id agent, agent)) as E.
  { apply find_agent_Some. split; [done | apply lookup_insert_eq]. }
  pose proof (execute_step_dispatched _ _ _ _ w E) as Hs. cbv zeta in Hs.
  rewrite Hs, Hid. done.
Qed.

Lemma registered_agent_is_dispatched_witness :
  py_get "result"
    (execute_step
       (agents (register_agent Sample.echo2 Sample.orchestrator
                               Sample.world).1.2)
       Sample.step_a Sample.world).1 =
  Some PNone.
Proof.
  destruct (registered_agent_is_dispatched Sample.echo2 Sample.orchestrator
              Sample.world Sample.step_a Sample.world eq_refl)
    as (Hout & _).
  rewrite Hout. reflexivity.
Defined.

(** ** What the engine logs *)

Lemma execute_workflow_log wid agents self w :
  log (execute_workflow wid agents self w).2 = log w.
Proof.
  destruct (PyDict.get wid (workflows self)) as [workflow|] eqn:E.
  - rewrite (execute_workflow_present _ _ _ _ _ E). cbn [snd].
    destruct (execute_steps_world agents (steps workflow) []
                (now_isoformat w).2) as (_ & _ & _ & Hl & _).
    set (run := execute_steps agents (steps workflow) [] (now_isoformat w).2) in *.
    change (log (now_isoformat run.2).2) with (log run.2). by rewrite Hl.
  - by rewrite (execute_workflow_absent _ _ _ _ E).
Qed.

Lemma do_call_log c self w :
  log (do_call c self w).2 =
    (log w ++ match c with
              | CallDefine _ nm _ => [("Workflow defined: " ++ nm)%string]
              | CallExecute _ _ => []
              end)%list.
Proof.
  destruct c as [wid nm stps|wid agents]; [done|].
  rewrite app_nil_r. simpl. unfold bind, ret.
  pose proof (execute_workflow_log wid agents self w) as H.
  by destruct (execute_workflow wid agents self w) as [[res self'] w'].
Qed.

Lemma do_calls_log cs self w :
  log (do_calls cs self w).2 =
    (log w ++ ((fun nm => ("Workflow defined: " ++ nm)%string) <$> defined_names cs))%list.
Proof.
  revert self w. induction cs as [|c rest IH]; intros self w.
  - simpl. by rewrite app_nil_r.
  - rewrite do_calls_cons, IH, do_call_log, <- app_assoc. f_equal.
    by destruct c.
Qed.

(** X14: the engine writes one log line when it is created and one line
    "Workflow defined: <name>" for every [define_workflow] call, in call
    order, also when the id was already stored; [execute_workflow] writes
    no line, whether the id is known or not. *)
Theorem log_after_history cs w :
  log (bind engine_init (do_calls cs) w).2 =
    (log w ++ "Workflow Engine initialized" ::
     ((fun nm => ("Workflow defined: " ++ nm)%string) <$> defined_names cs))%list.
Proof.
  rewrite engine_init_bind, do_calls_log. simpl. by rewrite <- app_assoc.
Qed.

Example log_after_history_sample :
  log (bind engine_init (do_calls Sample.history) Sample.world).2 =
    ["Workflow Engine initialized"; "Workflow defined: first";
     "Workflow defined: other"; "Workflow defined: second"].
Proof. reflexivity. Qed.

(** * The run with shared objects and raising agents *)

(** ** Values and the heap *)

Lemma pyval_nested_ind (P : pyval → Prop) :
  P PNone → (∀ b, P (PBool b)) → (∀ z, P (PInt z)) → (∀ m e, P (PFloat m e)) →
  (∀ s, P (PStr s)) →
  (∀ l, Forall P l → P (PList l)) →
  (∀ d, Forall (fun kv => P (snd kv)) d → P (PDict d)) →
  (∀ l, P (PRef l)) →
  ∀ v, P v.
Proof.
  intros HNone HBool HInt HFloat HStr HList HDict HRef.
  fix IH 1. intros [ |b|z|m e|s|l|d|l].
  - exact HNone.
  - apply HBool.
  - apply HInt.
  - apply HFloat.
  - apply HStr.
  - apply HList. induction l as [|x l IHl]; constructor; [apply IH | exact IHl].
  - apply HDict.
    induction d as [|[k x] d IHd]; constructor; [apply IH | exact IHd].
  - apply HRef.
Qed.

(** A value shows the same in two heaps that agree on the objects it
    refers to. *)
Lemma resolve_ext (h h' : ByRef.Heap) v :
  (∀ l, l ∈ ByRef.refs_of v → h' !! l = h !! l) →
  ByRef.resolve h' v = ByRef.resolve h v.
Proof.
  induction v as [ | | | | |l IH|d IH|l] using pyval_nested_ind;
    intros Hsame; simpl; try reflexivity.
  - f_equal. simpl in Hsame. induction IH as [|x l Hx _ IHl]; [done|].
    simpl. simpl in Hsame. f_equal.
    + apply Hx. intros r Hr. apply Hsame. apply elem_of_app. by left.
    + apply IHl. intros r Hr. apply Hsame. apply elem_of_app. by right.
  - f_equal. simpl in Hsame. induction IH as [|[k x] d Hx _ IHd]; [done|].
    simpl. simpl in Hsame. f_equal.
    + f_equal. apply Hx. intros r Hr. apply Hsame. apply elem_of_app. by left.
    + apply IHd. intros r Hr. apply Hsame. apply elem_of_app. by right.
  - rewrite Hsame; [done|]. simpl. by apply list_elem_of_singleton.
Qed.

Lemma resolve_step_ext (h h' : ByRef.Heap) step :
  (∀ l, l ∈ ByRef.refs_of (ByRef.step_value step) → h' !! l = h !! l) →
  ByRef.resolve_step h' step = ByRef.resolve_step h step.
Proof.
  intros Hsame. pose proof (resolve_ext h h' _ Hsame) as Heq.
  unfold ByRef.step_value, ByRef.resolve_step in *.
  destruct step as [aid ttype [params|] rest]; simpl in *.
  - injection Heq as Hp Hr. by rewrite Hp, Hr.
  - injection Heq as Hr. by rewrite Hr.
Qed.

Lemma stored_view_ext (h h' : ByRef.Heap) store :
  (∀ l, l ∈ ByRef.store_refs store → h' !! l = h !! l) →
  ByRef.stored_view h' store = ByRef.stored_view h store.
Proof.
  unfold ByRef.stored_view, ByRef.store_refs.
  induction store as [|[k wf] store IH]; intros Hsame; [done|].
  simpl in *. f_equal.
  - f_equal. unfold ByRef.resolve_workflow. f_equal.
    assert (∀ l, l ∈ concat (map (fun step => ByRef.refs_of (ByRef.step_value step))
                                 (steps wf)) → h' !! l = h !! l) as Hwf.
    { intros l Hl. apply Hsame. apply elem_of_app. by left. }
    clear Hsame IH. induction (steps wf) as [|step stps IHs]; [done|].
    simpl in *. f_equal.
    + apply resolve_step_ext. intros l Hl. apply Hwf. apply elem_of_app. by left.
    + apply IHs. intros l Hl. apply Hwf. apply elem_of_app. by right.
  - apply IH. intros l Hl. apply Hsame. apply elem_of_app. by right.
Qed.

Lemma ledger_view_ext (h h' : ByRef.Heap) ledger :
  (∀ l, l ∈ ByRef.ledger_refs ledger → h' !! l = h !! l) →
  ByRef.ledger_view h' ledger = ByRef.ledger_view h ledger.
Proof.
  unfold ByRef.ledger_view, ByRef.ledger_refs.
  induction ledger as [|entry ledger IH]; intros Hsame; [done|].
  simpl in *. f_equal.
  - apply resolve_ext. intros l Hl. apply Hsame. apply elem_of_app. by left.
  - apply IH. intros l Hl. apply Hsame. apply elem_of_app. by right.
Qed.

(** ** The loop body and the loop *)

Lemma byref_execute_step_absent agents step w h :
  find_agent (step_agent_id step) agents = None →
  ByRef.execute_step agents step w h =
    (inr (outcome_agent_not_found (step_agent_id step)), w, h).
Proof. intros E. unfold ByRef.execute_step. by rewrite E. Qed.

Lemma byref_execute_step_dispatched agents step key agent w h :
  find_agent (step_agent_id step) agents = Some (key, agent) →
  let task := task_of_step (uuid_src w (uuid_pos w)) step in
  let call := ByRef.execute_task agent task (memory w) h in
  ByRef.execute_step agents step w h =
    (match call.1.1 with
     | inl e => inl e
     | inr res => inr (outcome_of_result (step_agent_id step)
                                         (opt_str (step_task_type step)) res)
     end,
     mkWorld (clock w) (clock_pos w) (uuid_src w) (S (uuid_pos w))
             call.1.2 (log w) (calls w ++ [(key, task)]),
     call.2).
Proof.
  intros E. cbv zeta. unfold ByRef.execute_step. rewrite E.
  unfold uuid4_str, ByRef.call_execute_task. cbn [memory calls clock clock_pos
    uuid_src uuid_pos log].
  destruct (ByRef.execute_task agent _ (memory w) h) as [[[e|res] m'] h'];
    reflexivity.
Qed.

Lemma byref_execute_steps_cons agents step rest acc w h :
  ByRef.execute_steps agents (step :: rest) acc w h =
    match (ByRef.execute_step agents step w h).1.1 with
    | inl e => (inl e, (ByRef.execute_step agents step w h).1.2,
                (ByRef.execute_step agents step w h).2)
    | inr out =>
        ByRef.execute_steps agents rest (acc ++ [out])
          (ByRef.execute_step agents step w h).1.2
          (ByRef.execute_step agents step w h).2
    end.
Proof.
  simpl. by destruct (ByRef.execute_step agents step w h) as [[[e|out] w1] h1].
Qed.

Lemma byref_execute_steps_length agents stps acc w h outs :
  (ByRef.execute_steps agents stps acc w h).1.1 = inr outs →
  length outs = length acc + length stps.
Proof.
  revert acc w h. induction stps as [|step rest IH]; intros acc w h H.
  - simpl in H. injection H as <-. simpl. lia.
  - rewrite byref_execute_steps_cons in H.
    destruct (ByRef.execute_step agents step w h).1.1 as [e|out]; [done|].
    apply IH in H. rewrite H, length_app. simpl. lia.
Qed.

(** An exception that leaves the loop was raised by the agent of one of the
    steps, and that call is the last one made. *)
Lemma byref_execute_steps_raise agents stps acc w h e :
  (ByRef.execute_steps agents stps acc w h).1.1 = inl e →
  ∃ i step key agent u m h0,
    stps !! i = Some step ∧ step_agent_id step = Some key ∧
    agents !! key = Some agent ∧
    (ByRef.execute_task agent (task_of_step u step) m h0).1.1 = inl e ∧
    last (calls (ByRef.execute_steps agents stps acc w h).1.2) =
      Some (key, task_of_step u step).
Proof.
  revert acc w h. induction stps as [|step rest IH]; intros acc w h H; [done|].
  rewrite byref_execute_steps_cons in H. rewrite byref_execute_steps_cons.
  destruct (ByRef.execute_step agents step w h).1.1 as [e0|out] eqn:Hstep.
  - simpl in H. injection H as ->.
    destruct (find_agent (step_agent_id step) agents) as [[key agent]|] eqn:E.
    + pose proof (byref_execute_step_dispatched _ _ _ _ w h E) as Hs.
      cbv zeta in Hs. rewrite Hs in *. cbn [fst snd] in *.
      apply find_agent_Some in E as [Hid Hag].
      exists 0, step, key, agent, (uuid_src w (uuid_pos w)), (memory w), h.
      split_and!; try done.
      * revert Hstep.
        destruct (ByRef.execute_task agent _ (memory w) h).1.1; [|done].
        by intros [= ->].
      * cbn [calls]. apply last_snoc.
    + rewrite (byref_execute_step_absent _ _ _ _ E) in Hstep. done.
  - destruct (IH _ _ _ H) as (i & s & key & agent & u & m & h0 & Hi & Hrest).
    exists (S i), s, key, agent, u, m, h0. by split.
Qed.

(** Agents that return normally keep the loop going to its end. *)
Lemma byref_execute_steps_returns agents stps acc w h :
  (∀ key agent, agents !! key = Some agent → ByRef.returns_normally agent) →
  ∃ outs, (ByRef.execute_steps agents stps acc w h).1.1 = inr outs.
Proof.
  intros Hok.
  destruct (ByRef.execute_steps agents stps acc w h).1.1 as [e|outs] eqn:H;
    [|eauto].
  apply byref_execute_steps_raise in H
    as (i & s & key & agent & u & m & h0 & _ & _ & Hag & Hraise & _).
  destruct (Hok key agent Hag (task_of_step u s) m h0) as [res Hres].
  congruence.
Qed.

Lemma byref_execute_step_heap locs agents step w h l :
  (∀ key agent, agents !! key = Some agent → ByRef.writes_outside locs agent) →
  l ∈ locs → (ByRef.execute_step agents step w h).2 !! l = h !! l.
Proof.
  intros Hframe Hl.
  destruct (find_agent (step_agent_id step) agents) as [[key agent]|] eqn:E.
  - pose proof (byref_execute_step_dispatched _ _ _ _ w h E) as Hs.
    cbv zeta in Hs. rewrite Hs. cbn [snd].
    apply find_agent_Some in E as [_ Hag]. by apply (Hframe key agent Hag).
  - by rewrite (byref_execute_step_absent _ _ _ _ E).
Qed.

Lemma byref_execute_steps_heap locs agents stps acc w h l :
  (∀ key agent, agents !! key = Some agent → ByRef.writes_outside locs agent) →
  l ∈ locs → (ByRef.execute_steps agents stps acc w h).2 !! l = h !! l.
Proof.
  intros Hframe Hl. revert acc w h.
  induction stps as [|step rest IH]; intros acc w h; [done|].
  rewrite byref_execute_steps_cons.
  pose proof (byref_execute_step_heap locs agents step w h l Hframe Hl) as Hs.
  destruct (ByRef.execute_step agents step w h).1.1 as [e|out]; [done|].
  by rewrite IH.
Qed.

(** ** Whole runs *)

Lemma byref_execute_workflow_absent wid agents self w h :
  PyDict.get wid (workflows self) = None →
  ByRef.execute_workflow wid agents self w h =
    (inr workflow_not_found, self, w, h).
Proof. intros H. unfold ByRef.execute_workflow. by rewrite H. Qed.

Lemma byref_execute_workflow_present wid agents self w h workflow :
  PyDict.get wid (workflows self) = Some workflow →
  let run := ByRef.execute_steps agents (steps workflow) []
                                 (now_isoformat w).2 h in
  ByRef.execute_workflow wid agents self w h =
    match run.1.1 with
    | inl e => (inl e, self, run.1.2, run.2)
    | inr outs =>
        let execution :=
          execution_record wid (clock w (clock_pos w)) outs
                           (now_isoformat run.1.2).1 in
        (inr execution,
         mkEngine (workflows self) (execution_history self ++ [execution]),
         (now_isoformat run.1.2).2, run.2)
    end.
Proof.
  intros H. cbv zeta. unfold ByRef.execute_workflow. rewrite H.
  change (now_isoformat w) with (clock w (clock_pos w), (now_isoformat w).2).
  cbv iota beta.
  destruct (ByRef.execute_steps agents (steps workflow) [] _ h)
    as [[[e|outs] w2] h2]; reflexivity.
Qed.

Lemma byref_execute_workflow_workflows wid agents self w h :
  workflows (ByRef.execute_workflow wid agents self w h).1.1.2 = workflows self.
Proof.
  destruct (PyDict.get wid (workflows self)) as [workflow|] eqn:E.
  - rewrite (byref_execute_workflow_present _ _ _ _ _ _ E). cbv zeta.
    by destruct (ByRef.execute_steps agents (steps workflow) [] _ h).1.1.
  - by rewrite (byref_execute_workflow_absent _ _ _ _ _ E).
Qed.

Lemma byref_execute_workflow_heap locs wid agents self w h l :
  (∀ key agent, agents !! key = Some agent → ByRef.writes_outside locs agent) →
  l ∈ locs → (ByRef.execute_workflow wid agents self w h).2 !! l = h !! l.
Proof.
  intros Hframe Hl.
  destruct (PyDict.get wid (workflows self)) as [workflow|] eqn:E.
  - rewrite (byref_execute_workflow_present _ _ _ _ _ _ E). cbv zeta.
    pose proof (byref_execute_steps_heap locs agents (steps workflow) []
                  (now_isoformat w).2 h l Hframe Hl) as Hs.
    by destruct (ByRef.execute_steps agents (steps workflow) [] _ h).1.1.
  - by rewrite (byref_execute_workflow_absent _ _ _ _ _ E).
Qed.

Lemma byref_execute_workflow_history wid agents self w h workflow :
  PyDict.get wid (workflows self) = Some workflow →
  let r := ByRef.execute_workflow wid agents self w h in
  match r.1.1.1 with
  | inl e => r.1.1.2 = self
  | inr record =>
      execution_history r.1.1.2 = (execution_history self ++ [record])%list ∧
      ∃ started outs completed,
        record = execution_record wid started outs completed ∧
        length outs = length (steps workflow)
  end.
Proof.
  intros E. cbv zeta. rewrite (byref_execute_workflow_present _ _ _ _ _ _ E).
  cbv zeta.
  destruct (ByRef.execute_steps agents (steps workflow) [] _ h).1.1
    as [e|outs] eqn:Hrun; cbn [fst snd]; [done|].
  split; [done|]. eexists _, _, _. split; [done|].
  by rewrite (byref_execute_steps_length _ _ _ _ _ _ Hrun).
Qed.

(** ** The two readings agree on plain agents *)

Lemma plain_agents_lookup (agents : gmap string Agent) key agent :
  (plain_agent <$> agents) !! key = Some agent →
  ∃ a, agents !! key = Some a ∧ agent = plain_agent a.
Proof.
  rewrite lookup_fmap. destruct (agents !! key) as [a|]; [|done].
  intros [= <-]. eauto.
Qed.

Lemma plain_agent_returns_normally a : ByRef.returns_normally (plain_agent a).
Proof.
  intros task m h. simpl. destruct (execute_task a task m) as [r m']. eauto.
Qed.

Lemma plain_agent_writes_outside locs a :
  ByRef.writes_outside locs (plain_agent a).
Proof.
  intros task m h l _. simpl. by destruct (execute_task a task m).
Qed.

Lemma find_agent_plain aid (agents : gmap string Agent) :
  find_agent aid (plain_agent <$> agents) =
    (fun hit => (hit.1, plain_agent hit.2)) <$> find_agent aid agents.
Proof.
  rewrite !find_agent_lookup. destruct aid as [key|]; [|done].
  rewrite lookup_fmap. by destruct (agents !! key).
Qed.

Lemma byref_execute_step_plain agents step w h :
  ByRef.execute_step (plain_agent <$> agents) step w h =
    (inr (execute_step agents step w).1, (execute_step agents step w).2, h).
Proof.
  destruct (find_agent (step_agent_id step) agents) as [[key a]|] eqn:E.
  - assert (find_agent (step_agent_id step) (plain_agent <$> agents) =
            Some (key, plain_agent a)) as E' by (by rewrite find_agent_plain, E).
    pose proof (byref_execute_step_dispatched _ _ _ _ w h E') as Hs.
    pose proof (execute_step_dispatched _ _ _ _ w E) as Hp.
    cbv zeta in Hs, Hp. rewrite Hs, Hp. simpl.
    by destruct (execute_task a _ (memory w)).
  - assert (find_agent (step_agent_id step) (plain_agent <$> agents) = None)
      as E' by (by rewrite find_agent_plain, E).
    by rewrite (byref_execute_step_absent _ _ _ _ E'),
               (execute_step_absent _ _ _ E).
Qed.

Lemma byref_execute_steps_plain agents stps acc w h :
  ByRef.execute_steps (plain_agent <$> agents) stps acc w h =
    (inr (execute_steps agents stps acc w).1,
     (execute_steps agents stps acc w).2, h).
Proof.
  revert acc w. induction stps as [|step rest IH]; intros acc w; [done|].
  rewrite byref_execute_steps_cons, byref_execute_step_plain. cbn [fst snd].
  by rewrite IH, execute_steps_cons.
Qed.

(** On agents that return normally and touch only their own state, the run
    with shared objects is the run of the first reading, and the heap is left
    as it was. *)
Lemma byref_agrees_on_plain_agents wid agents self w h :
  ByRef.execute_workflow wid (plain_agent <$> agents) self w h =
    (inr (execute_workflow wid agents self w).1.1,
     (execute_workflow wid agents self w).1.2,
     (execute_workflow wid agents self w).2, h).
Proof.
  destruct (PyDict.get wid (workflows self)) as [workflow|] eqn:E.
  - rewrite (byref_execute_workflow_present _ _ _ _ _ _ E).
    rewrite (execute_workflow_present _ _ _ _ _ E). cbv zeta.
    rewrite byref_execute_steps_plain. cbn [fst snd].
    destruct (execute_workflow_world_aux agents (steps workflow) w) as [Hc Hp].
    set (run := execute_steps agents (steps workflow) [] (now_isoformat w).2) in *.
    change (now_isoformat run.2).1 with (clock run.2 (clock_pos run.2)).
    by rewrite Hc, Hp.
  - by rewrite (byref_execute_workflow_absent _ _ _ _ _ E),
               (execute_workflow_absent _ _ _ _ E).
Qed.

(** ** Aborted runs *)

(** C2, as stated, fails on "the only failure that aborts a whole run": the
    agent call has no handler around it. WR is stored; its second step goes
    to an agent that raises, the exception leaves [execute_workflow], no
    record is returned, nothing is appended to the ledger, and the third step
    never runs (two agent calls were made). *)
Lemma raising_agent_aborts_stored_workflow :
  PyDict.contains "WR" (workflows Sample.engine3) = true ∧
  (ByRef.execute_workflow "WR" Sample.byref_pool Sample.engine3
                          Sample.world Sample.heap).1.1.1 =
    inl (ByRef.Exception "boom") ∧
  execution_history
    (ByRef.execute_workflow "WR" Sample.byref_pool Sample.engine3
                            Sample.world Sample.heap).1.1.2 =
    execution_history Sample.engine3 ∧
  length (calls (ByRef.execute_workflow "WR" Sample.byref_pool Sample.engine3
                                        Sample.world Sample.heap).1.2) = 2.
Proof. vm_compute. repeat split. Qed.

(** C2, amended: for a workflow id that is not in the store,
    [execute_workflow] returns the workflow-not-found result without touching
    the engine, the world or the heap (no step runs, nothing is appended).
    For a stored id the run is aborted only when the [execute_task] of one of
    its steps' agents raises: then the exception leaves [execute_workflow]
    right after that call, and the engine, ledger included, is as before.
    Otherwise the run returns a record with one outcome per step and appends
    it; this is the case whenever the agents return normally. *)
Theorem execute_workflow_aborts_only_on_raise wid agents self w h :
  (PyDict.get wid (workflows self) = None →
   ByRef.execute_workflow wid agents self w h =
     (inr workflow_not_found, self, w, h)) ∧
  (∀ workflow, PyDict.get wid (workflows self) = Some workflow →
     let r := ByRef.execute_workflow wid agents self w h in
     (∃ started outs completed,
        r.1.1.1 = inr (execution_record wid started outs completed) ∧
        length outs = length (steps workflow) ∧
        execution_history r.1.1.2 =
          (execution_history self ++
           [execution_record wid started outs completed])%list) ∨
     (∃ e i step key agent u m h0,
        r.1.1.1 = inl e ∧ r.1.1.2 = self ∧
        steps workflow !! i = Some step ∧ step_agent_id step = Some key ∧
        agents !! key = Some agent ∧
        (ByRef.execute_task agent (task_of_step u step) m h0).1.1 = inl e ∧
        last (calls r.1.2) = Some (key, task_of_step u step))) ∧
  (∀ workflow, PyDict.get wid (workflows self) = Some workflow →
     (∀ key agent, agents !! key = Some agent → ByRef.returns_normally agent) →
     ∃ started outs completed,
       (ByRef.execute_workflow wid agents self w h).1.1.1 =
         inr (execution_record wid started outs completed) ∧
       length outs = length (steps workflow) ∧
       execution_history (ByRef.execute_workflow wid agents self w h).1.1.2 =
         (execution_history self ++
          [execution_record wid started outs completed])%list).
Proof.
  split_and!.
  - apply byref_execute_workflow_absent.
  - intros workflow E. cbv zeta.
    rewrite (byref_execute_workflow_present _ _ _ _ _ _ E). cbv zeta.
    destruct (ByRef.execute_steps agents (steps workflow) [] _ h).1.1
      as [e|outs] eqn:Hrun; cbn [fst snd].
    + right.
      destruct (byref_execute_steps_raise _ _ _ _ _ _ Hrun)
        as (i & step & key & agent & u & m & h0 & Hi & Hid & Hag & Hr & Hlast).
      exists e, i, step, key, agent, u, m, h0. by split_and!.
    + left. eexists _, _, _. split_and!; [done| |done].
      by rewrite (byref_execute_steps_length _ _ _ _ _ _ Hrun).
  - intros workflow E Hok.
    rewrite (byref_execute_workflow_present _ _ _ _ _ _ E). cbv zeta.
    destruct (byref_execute_steps_returns agents (steps workflow) []
                (now_isoformat w).2 h Hok) as [outs Hrun].
    rewrite Hrun. cbn [fst snd].
    eexists _, _, _. split_and!; [done| |done].
    by rewrite (byref_execute_steps_length _ _ _ _ _ _ Hrun).
Qed.

Lemma execute_workflow_aborts_only_on_raise_witness :
  ByRef.execute_workflow "missing" Sample.byref_pool Sample.engine3
                         Sample.world Sample.heap =
    (inr workflow_not_found, Sample.engine3, Sample.world, Sample.heap) ∧
  ∃ started outs completed,
    (ByRef.execute_workflow "WR" Sample.plain_pool Sample.engine3
                            Sample.world Sample.heap).1.1.1 =
      inr (execution_record "WR" started outs completed) ∧
    length outs = 3.
Proof.
  split.
  - apply (proj1 (execute_workflow_aborts_only_on_raise "missing"
                    Sample.byref_pool Sample.engine3 Sample.world Sample.heap)).
    reflexivity.
  - destruct (proj2 (proj2 (execute_workflow_aborts_only_on_raise "WR"
                       Sample.plain_pool Sample.engine3 Sample.world
                       Sample.heap)) _ eq_refl)
      as (started & outs & completed & Hres & Hlen & _).
    + intros key agent Hag.
      apply plain_agents_lookup in Hag as (a & _ & ->).
      apply plain_agent_returns_normally.
    + exists started, outs, completed. split; [exact Hres | exact Hlen].
Defined.

(** ** The definition store during a run *)

(** C5, as stated, fails for an agent that writes to the parameters of its
    task: the task carries the stored step's own parameters object. After the
    run of WS the definition stored under WS shows other parameters than
    before. *)
Lemma agent_writes_stored_parameters :
  steps <$> PyDict.get "WS"
    (ByRef.stored_view Sample.heap (workflows Sample.engine3)) =
    Some [mkStep (Some "scribe") (Some "greet")
                 (Some (PDict [("who", PStr "world")])) []] ∧
  steps <$> PyDict.get "WS"
    (ByRef.stored_view
       (ByRef.execute_workflow "WS" Sample.byref_pool Sample.engine3
                               Sample.world Sample.heap).2
       (workflows
          (ByRef.execute_workflow "WS" Sample.byref_pool Sample.engine3
                                  Sample.world Sample.heap).1.1.2)) =
    Some [mkStep (Some "scribe") (Some "greet")
                 (Some (PDict [("who", PStr "mallory")])) []] ∧
  ByRef.stored_view
    (ByRef.execute_workflow "WS" Sample.byref_pool Sample.engine3
                            Sample.world Sample.heap).2
    (workflows
       (ByRef.execute_workflow "WS" Sample.byref_pool Sample.engine3
                               Sample.world Sample.heap).1.1.2) ≠
  ByRef.stored_view Sample.heap (workflows Sample.engine3).
Proof. vm_compute. split_and!; [reflexivity | reflexivity | discriminate]. Qed.

(** C5, amended: [execute_workflow] itself never writes to the definition
    store. For every workflow id and agents map, also when an agent raises,
    the stored ids, their order and every definition's id, name, creation
    timestamp and steps (agent id, task type, and which parameters object the
    step holds) are the same after the call. What the store shows, with the
    content of the objects it refers to, is the same after the call provided
    no agent in the map writes to these objects. *)
Theorem execute_workflow_never_writes_store wid agents self w h :
  let r := ByRef.execute_workflow wid agents self w h in
  workflows r.1.1.2 = workflows self ∧
  ((∀ key agent, agents !! key = Some agent →
      ByRef.writes_outside (ByRef.store_refs (workflows self)) agent) →
   ByRef.stored_view r.2 (workflows r.1.1.2) =
     ByRef.stored_view h (workflows self)).
Proof.
  cbv zeta. rewrite byref_execute_workflow_workflows. split; [done|].
  intros Hframe. apply stored_view_ext. intros l Hl.
  by apply (byref_execute_workflow_heap (ByRef.store_refs (workflows self))).
Qed.

Lemma execute_workflow_never_writes_store_witness :
  ByRef.stored_view
    (ByRef.execute_workflow "WS" Sample.plain_pool Sample.engine3
                            Sample.world Sample.heap).2
    (workflows
       (ByRef.execute_workflow "WS" Sample.plain_pool Sample.engine3
                               Sample.world Sample.heap).1.1.2) =
  ByRef.stored_view Sample.heap (workflows Sample.engine3).
Proof.
  apply (proj2 (execute_workflow_never_writes_store "WS" Sample.plain_pool
                  Sample.engine3 Sample.world Sample.heap)).
  intros key agent Hag.
  apply plain_agents_lookup in Hag as (a & _ & ->).
  apply plain_agent_writes_outside.
Defined.

(** ** The ledger during a run *)

(** C6, as stated, fails on "leaves all previously appended records
    unmodified": the ledger keeps the agents' payload objects, not copies.
    The agent of WT returns the same dict object at every call and counts in
    it. After the second run the first entry is still the first entry of the
    ledger, but it shows n = 2 where it showed n = 1. *)
Lemma later_run_changes_earlier_entry :
  execution_history
    (ByRef.execute_workflow "WT" Sample.byref_pool
       (ByRef.execute_workflow "WT" Sample.byref_pool Sample.engine3
                               Sample.world Sample.heap).1.1.2
       (ByRef.execute_workflow "WT" Sample.byref_pool Sample.engine3
                               Sample.world Sample.heap).1.2
       (ByRef.execute_workflow "WT" Sample.byref_pool Sample.engine3
                               Sample.world Sample.heap).2).1.1.2 !! 0 =
  execution_history
    (ByRef.execute_workflow "WT" Sample.byref_pool Sample.engine3
                            Sample.world Sample.heap).1.1.2 !! 0 ∧
  ByRef.ledger_view
    (ByRef.execute_workflow "WT" Sample.byref_pool
       (ByRef.execute_workflow "WT" Sample.byref_pool Sample.engine3
                               Sample.world Sample.heap).1.1.2
       (ByRef.execute_workflow "WT" Sample.byref_pool Sample.engine3
                               Sample.world Sample.heap).1.2
       (ByRef.execute_workflow "WT" Sample.byref_pool Sample.engine3
                               Sample.world Sample.heap).2).2
    (execution_history
       (ByRef.execute_workflow "WT" Sample.byref_pool Sample.engine3
                               Sample.world Sample.heap).1.1.2) ≠
  ByRef.ledger_view
    (ByRef.execute_workflow "WT" Sample.byref_pool Sample.engine3
                            Sample.world Sample.heap).2
    (execution_history
       (ByRef.execute_workflow "WT" Sample.byref_pool Sample.engine3
                               Sample.world Sample.heap).1.1.2).
Proof. vm_compute. split; [reflexivity | discriminate]. Qed.

(** C6, amended: a call of [execute_workflow] on a stored id that returns
    (no agent raises) appends exactly one entry, the returned record, after
    the entries that were there; a call that raises appends nothing, and no
    call removes, replaces or moves an earlier entry. Hence two completed
    runs of the same id leave two entries, in the order of the runs. An entry
    keeps the agents' payloads by reference: what the earlier entries show is
    the same after the call provided no agent in the map writes to the
    objects they refer to. *)
Theorem execute_workflow_appends_by_reference wid agents self w h workflow :
  PyDict.get wid (workflows self) = Some workflow →
  let r := ByRef.execute_workflow wid agents self w h in
  (∀ record, r.1.1.1 = inr record →
     execution_history r.1.1.2 = (execution_history self ++ [record])%list) ∧
  (∀ e, r.1.1.1 = inl e → execution_history r.1.1.2 = execution_history self) ∧
  execution_history self `prefix_of` execution_history r.1.1.2 ∧
  (∀ record agents2 record2,
     r.1.1.1 = inr record →
     (ByRef.execute_workflow wid agents2 r.1.1.2 r.1.2 r.2).1.1.1 = inr record2 →
     execution_history
       (ByRef.execute_workflow wid agents2 r.1.1.2 r.1.2 r.2).1.1.2 =
       (execution_history self ++ [record; record2])%list) ∧
  ((∀ key agent, agents !! key = Some agent →
      ByRef.writes_outside (ByRef.ledger_refs (execution_history self)) agent) →
   ByRef.ledger_view r.2 (execution_history self) =
     ByRef.ledger_view h (execution_history self)).
Proof.
  intros E. cbv zeta.
  assert (∀ ag s v g rec,
            PyDict.get wid (workflows s) = Some workflow →
            (ByRef.execute_workflow wid ag s v g).1.1.1 = inr rec →
            execution_history (ByRef.execute_workflow wid ag s v g).1.1.2 =
              (execution_history s ++ [rec])%list) as Hone.
  { intros ag s v g rec Hs Hres.
    pose proof (byref_execute_workflow_history wid ag s v g workflow Hs) as Hh.
    cbv zeta in Hh. rewrite Hres in Hh. by destruct Hh. }
  pose proof (byref_execute_workflow_history wid agents self w h workflow E)
    as Hhist. cbv zeta in Hhist.
  split_and!.
  - intros record Hres. by apply Hone.
  - intros e Hres. rewrite Hres in Hhist. by rewrite Hhist.
  - destruct (ByRef.execute_workflow wid agents self w h).1.1.1 as [e|record].
    + by rewrite Hhist.
    + destruct Hhist as [-> _]. by apply prefix_app_r.
  - intros record agents2 record2 Hres Hres2.
    rewrite (Hone agents2 _ _ _ record2); [| |done].
    + rewrite (Hone agents self w h record E Hres). by rewrite <- app_assoc.
    + by rewrite byref_execute_workflow_workflows.
  - intros Hframe. apply ledger_view_ext. intros l Hl.
    by apply (byref_execute_workflow_heap
                (ByRef.ledger_refs (execution_history self))).
Qed.

Lemma execute_workflow_appends_by_reference_witness :
  length
    (execution_history
       (ByRef.execute_workflow "WT" Sample.byref_pool
          (ByRef.execute_workflow "WT" Sample.byref_pool Sample.engine3
                                  Sample.world Sample.heap).1.1.2
          (ByRef.execute_workflow "WT" Sample.byref_pool Sample.engine3
                                  Sample.world Sample.heap).1.2
          (ByRef.execute_workflow "WT" Sample.byref_pool Sample.engine3
                                  Sample.world Sample.heap).2).1.1.2) = 2 ∧
  ByRef.ledger_view
    (ByRef.execute_workflow "WR" Sample.plain_pool
       (ByRef.execute_workflow "WT" Sample.byref_pool Sample.engine3
                               Sample.world Sample.heap).1.1.2
       (ByRef.execute_workflow "WT" Sample.byref_pool Sample.engine3
                               Sample.world Sample.heap).1.2
       (ByRef.execute_workflow "WT" Sample.byref_pool Sample.engine3
                               Sample.world Sample.heap).2).2
    (execution_history
       (ByRef.execute_workflow "WT" Sample.byref_pool Sample.engine3
                               Sample.world Sample.heap).1.1.2) =
  ByRef.ledger_view
    (ByRef.execute_workflow "WT" Sample.byref_pool Sample.engine3
                            Sample.world Sample.heap).2
    (execution_history
       (ByRef.execute_workflow "WT" Sample.byref_pool Sample.engine3
                               Sample.world Sample.heap).1.1.2).
Proof.
  split.
  - destruct (execute_workflow_appends_by_reference "WT" Sample.byref_pool
                Sample.engine3 Sample.world Sample.heap _ eq_refl)
      as (_ & _ & _ & Htwo & _).
    rewrite (Htwo _ Sample.byref_pool _ eq_refl eq_refl). reflexivity.
  - destruct (execute_workflow_appends_by_reference "WR" Sample.plain_pool
                (ByRef.execute_workflow "WT" Sample.byref_pool Sample.engine3
                                        Sample.world Sample.heap).1.1.2
                (ByRef.execute_workflow "WT" Sample.byref_pool Sample.engine3
                                        Sample.world Sample.heap).1.2
                (ByRef.execute_workflow "WT" Sample.byref_pool Sample.engine3
                                        Sample.world Sample.heap).2
                _ eq_refl)
      as (_ & _ & _ & _ & Hframe).
    apply Hframe. intros key agent Hag.
    apply plain_agents_lookup in Hag as (a & _ & ->).
    apply plain_agent_writes_outside.
Defined.
